(** * OpenOrca demo mock server ([demo/mock-server.py])

    A shallow embedding of the mock OpenAI-compatible server and the
    verification of its response selection, streaming and routing.

    Conventions of the embedding.
    - A Python [str] is a Rocq [string] holding the UTF-8 encoding of the text.
      The only separator the program splits on is U+0020, whose byte 0x20
      never occurs inside a multi-byte UTF-8 sequence, so splitting the bytes
      and splitting the code points agree.
    - A Python [dict] is an association list in insertion order with unique
      keys ([PyDict.set] overwrites in place or appends), because [json.dumps]
      prints keys in insertion order.
    - An uncaught Python exception is a value of [exn]; fallible code lives
      in the error monad [result].
    - [time.time()] is an input: [now] for one reading, [clock k] for the
      k-th reading taken while one request is served.
    - The response stream [wfile] is the trace of actions performed on it;
      every write succeeds (the client stays connected).

    Embedded: the constants, [make_sse_chunk], [stream_text] and the class
    [MockHandler] with [do_GET], [do_POST], [_handle_models] and
    [_handle_completions] with the line it prints, and the port argument of
    [main], over models of the library functions they call ([str.split],
    [json.dumps], [json.loads], and the dispatch and error replies of
    [http.server]).  Left out: the socket and the banner of [main], and
    [log_message], which no reply depends on.

    Scope.  A request is taken after [http.server] has parsed it, with a
    [Content-Length] that is absent or a number: [_handle_completions] gives
    the header to [int], and a value that [int] rejects raises [ValueError]
    there, before anything is sent; such requests are not values of
    [request].  The limits of the interpreter are not modelled: [json.loads]
    of CPython raises [RecursionError] on a document nested about a thousand
    deep and [ValueError] on an integer of more than 4300 digits, where
    [PyJson.loads] decodes the document.  A statement that takes the
    decoded body as a hypothesis does not depend on this. *)

From Stdlib Require Import String Ascii List ZArith NArith QArith Lia Bool.
From Stdlib Require Import DecimalString Permutation.
From Stdlib Require DecimalPos DecimalFacts.
Import ListNotations.
Local Close Scope Q_scope.
Local Open Scope list_scope.
Local Open Scope string_scope.

(** ** Python values and exceptions *)

Inductive exn : Type :=
| JSONDecodeError
| UnicodeDecodeError
| RecursionError
| AttributeError
| TypeError.

Inductive result (A : Type) : Type :=
| Ok (a : A)
| Raise (e : exn).
Arguments Ok {A} a.
Arguments Raise {A} e.

Definition bind {A B : Type} (m : result A) (k : A -> result B) : result B :=
  match m with
  | Ok a => k a
  | Raise e => Raise e
  end.

Notation "x <- m ;; k" := (bind m (fun x => k))
  (at level 61, m at next level, right associativity).
Notation "' p <- m ;; k" := (bind m (fun x => let p := x in k))
  (at level 61, p pattern, m at next level, right associativity).

#[local] Set Warnings "-register-all".

Inductive json : Type :=
| JNull
| JBool (b : bool)
| JInt (z : Z)
| JFloat (lexeme : string)
| JString (s : string)
| JArray (items : list json)
| JObject (members : list (string * json)).

Definition dict : Type := list (string * json).

Module PyStr.

Definition dq : ascii := "034"%char.
Definition backslash : ascii := "092"%char.
Definition nl : string := String "010"%char EmptyString.

(** [q s] is [s] between two double quotes. *)
Definition q (s : string) : string := String dq (s ++ String dq EmptyString).

(** Truth value of a [str]: every string but the empty one is true. *)
Definition truthy (s : string) : bool :=
  match s with
  | EmptyString => false
  | String _ _ => true
  end.

(** [s.split(sep)] for a one-character separator: the pieces between the
    separators, empty pieces included; the empty string gives one empty
    piece. *)
Fixpoint split (sep : ascii) (s : string) : list string :=
  match s with
  | EmptyString => [EmptyString]
  | String c rest =>
      if Ascii.eqb c sep then EmptyString :: split sep rest
      else match split sep rest with
           | w :: ws => String c w :: ws
           | [] => [String c EmptyString]
           end
  end.

(** [enumerate(l)] *)
Definition enumerate {A : Type} (l : list A) : list (nat * A) :=
  combine (seq 0 (length l)) l.

(** [sub in s] *)
Fixpoint contains (sub s : string) : bool :=
  if String.prefix sub s then true
  else match s with
       | EmptyString => false
       | String _ rest => contains sub rest
       end.

(** [s.count(sub)] for a non-empty [sub] that cannot overlap itself. *)
Fixpoint count (sub s : string) : nat :=
  match s with
  | EmptyString => 0
  | String _ rest =>
      (if String.prefix sub s then 1 else 0) + count sub rest
  end.

(** [str(z)] for an [int]. *)
Definition of_int (z : Z) : string := NilZero.string_of_int (Z.to_int z).

(** The code points of a UTF-8 byte string.  A byte that does not start a
    complete sequence stands for itself; the strings of this development
    are well-formed, so that case is never reached. *)
Fixpoint codepoints (s : string) : list N :=
  match s with
  | EmptyString => []
  | String b0 r0 =>
      let n0 := N_of_ascii b0 in
      let cont b := N.land (N_of_ascii b) 63 in
      if (n0 <? 128)%N then n0 :: codepoints r0
      else if (n0 <? 224)%N then
        match r0 with
        | String b1 r1 =>
            (N.shiftl (N.land n0 31) 6 + cont b1)%N :: codepoints r1
        | _ => [n0]
        end
      else if (n0 <? 240)%N then
        match r0 with
        | String b1 (String b2 r2) =>
            (N.shiftl (N.land n0 15) 12 + N.shiftl (cont b1) 6 + cont b2)%N
              :: codepoints r2
        | _ => [n0]
        end
      else
        match r0 with
        | String b1 (String b2 (String b3 r3)) =>
            (N.shiftl (N.land n0 7) 18 + N.shiftl (cont b1) 12
             + N.shiftl (cont b2) 6 + cont b3)%N :: codepoints r3
        | _ => [n0]
        end
  end.

(** [chr(n).encode('utf-8', 'surrogatepass')] *)
Definition encode_codepoint (n : N) : string :=
  let byte k := ascii_of_N k in
  let cont k := byte (128 + N.land k 63)%N in
  if (n <? 128)%N then String (byte n) EmptyString
  else if (n <? 2048)%N then
    String (byte (192 + N.shiftr n 6)%N) (String (cont n) EmptyString)
  else if (n <? 65536)%N then
    String (byte (224 + N.shiftr n 12)%N)
      (String (cont (N.shiftr n 6)) (String (cont n) EmptyString))
  else
    String (byte (240 + N.shiftr n 18)%N)
      (String (cont (N.shiftr n 12))
         (String (cont (N.shiftr n 6)) (String (cont n) EmptyString))).

(** [bytes.decode('utf-8', 'surrogatepass')] succeeds: shortest-form
    sequences up to U+10FFFF, surrogates let through. *)
Fixpoint utf8_valid (s : string) : bool :=
  match s with
  | EmptyString => true
  | String b0 r0 =>
      let n0 := N_of_ascii b0 in
      let is_cont b := ((128 <=? N_of_ascii b) && (N_of_ascii b <? 192))%N in
      if (n0 <? 128)%N then utf8_valid r0
      else if (n0 <? 194)%N then false
      else if (n0 <? 224)%N then
        match r0 with
        | String b1 r1 => is_cont b1 && utf8_valid r1
        | _ => false
        end
      else if (n0 <? 240)%N then
        match r0 with
        | String b1 (String b2 r2) =>
            is_cont b1 && is_cont b2
            && (negb (n0 =? 224)%N || (160 <=? N_of_ascii b1)%N)
            && utf8_valid r2
        | _ => false
        end
      else if (n0 <? 245)%N then
        match r0 with
        | String b1 (String b2 (String b3 r3)) =>
            is_cont b1 && is_cont b2 && is_cont b3
            && (negb (n0 =? 240)%N || (144 <=? N_of_ascii b1)%N)
            && (negb (n0 =? 244)%N || (N_of_ascii b1 <? 144)%N)
            && utf8_valid r3
        | _ => false
        end
      else false
  end.

End PyStr.

(** ** Python dictionaries *)

Module PyDict.

(** [d.get(k)], [None] being [None]. *)
Fixpoint get (k : string) (d : dict) : option json :=
  match d with
  | [] => None
  | (k', v) :: rest => if String.eqb k k' then Some v else get k rest
  end.

(** [d[k] = v] *)
Fixpoint set (k : string) (v : json) (d : dict) : dict :=
  match d with
  | [] => [(k, v)]
  | (k', v') :: rest =>
      if String.eqb k k' then (k', v) :: rest else (k', v') :: set k v rest
  end.

(** [k in d] *)
Definition mem (k : string) (d : dict) : bool :=
  match get k d with
  | Some _ => true
  | None => false
  end.

(** [dict(pairs)] *)
Definition of_pairs (pairs : list (string * json)) : dict :=
  fold_left (fun d kv => set (fst kv) (snd kv) d) pairs [].

End PyDict.

(** ** The [json] module of the Python standard library

    [dumps] is [json.dumps] with its default settings ([ensure_ascii],
    separators [", "] and [": "]); [loads] is [json.loads] on [bytes], with
    the default decoder.  Resource limits of the interpreter (recursion
    depth, the digit limit of [int]) are not part of the model. *)

Module PyJson.

Import PyStr.

Definition hex_digit (n : N) : ascii :=
  if (n <? 10)%N then ascii_of_N (48 + n) else ascii_of_N (87 + n).

(** ['{0:04x}'.format(n)] for [n < 65536] *)
Definition hex4 (n : N) : string :=
  String (hex_digit (N.land (N.shiftr n 12) 15))
    (String (hex_digit (N.land (N.shiftr n 8) 15))
       (String (hex_digit (N.land (N.shiftr n 4) 15))
          (String (hex_digit (N.land n 15)) EmptyString))).

Definition uescape (n : N) : string := String backslash ("u" ++ hex4 n).

(** The replacement of one character under [ESCAPE_ASCII]. *)
Definition escape_codepoint (n : N) : string :=
  if (n =? 34)%N then String backslash (String dq EmptyString)
  else if (n =? 92)%N then String backslash (String backslash EmptyString)
  else if (n =? 10)%N then String backslash "n"
  else if (n =? 13)%N then String backslash "r"
  else if (n =? 9)%N then String backslash "t"
  else if (n =? 8)%N then String backslash "b"
  else if (n =? 12)%N then String backslash "f"
  else if ((32 <=? n) && (n <? 127))%N then String (ascii_of_N n) EmptyString
  else if (n <? 65536)%N then uescape n
  else
    let m := (n - 65536)%N in
    uescape (N.lor 55296 (N.land (N.shiftr m 10) 1023))
    ++ uescape (N.lor 56320 (N.land m 1023)).

Definition encode_basestring_ascii (s : string) : string :=
  q (String.concat EmptyString (map escape_codepoint (codepoints s))).

(** [json.dumps(v)].  A float is printed by its lexeme; the server never
    prints one. *)
Fixpoint dumps (v : json) : string :=
  match v with
  | JNull => "null"
  | JBool b => if b then "true" else "false"
  | JInt z => of_int z
  | JFloat lexeme => lexeme
  | JString s => encode_basestring_ascii s
  | JArray items =>
      "[" ++ (fix elems (l : list json) : string :=
                match l with
                | [] => EmptyString
                | x :: r =>
                    match r with
                    | [] => dumps x
                    | _ :: _ => dumps x ++ ", " ++ elems r
                    end
                end) items ++ "]"
  | JObject members =>
      "{" ++ (fix elems (l : list (string * json)) : string :=
                match l with
                | [] => EmptyString
                | (k, x) :: r =>
                    let item := encode_basestring_ascii k ++ ": " ++ dumps x in
                    match r with
                    | [] => item
                    | _ :: _ => item ++ ", " ++ elems r
                    end
                end) members ++ "}"
  end.

(** *** Decoding the bytes of a document *)

Inductive encoding : Type :=
| utf_8 | utf_8_sig | utf_16 | utf_16_be | utf_16_le
| utf_32 | utf_32_be | utf_32_le.

Definition byte_at (k : nat) (b : string) : N :=
  match String.get k b with
  | Some c => N_of_ascii c
  | None => 0%N
  end.

Definition bytes_of (l : list N) : string :=
  fold_right (fun n s => String (ascii_of_N n) s) EmptyString l.

Definition BOM_UTF8 : string := bytes_of [239; 187; 191]%N.
Definition BOM_UTF16_LE : string := bytes_of [255; 254]%N.
Definition BOM_UTF16_BE : string := bytes_of [254; 255]%N.
Definition BOM_UTF32_LE : string := bytes_of [255; 254; 0; 0]%N.
Definition BOM_UTF32_BE : string := bytes_of [0; 0; 254; 255]%N.

Definition detect_encoding (b : string) : encoding :=
  if String.prefix BOM_UTF32_BE b || String.prefix BOM_UTF32_LE b then utf_32
  else if String.prefix BOM_UTF16_BE b || String.prefix BOM_UTF16_LE b
  then utf_16
  else if String.prefix BOM_UTF8 b then utf_8_sig
  else if (4 <=? String.length b)%nat then
    if (byte_at 0 b =? 0)%N then
      if (byte_at 1 b =? 0)%N then utf_32_be else utf_16_be
    else if (byte_at 1 b =? 0)%N then
      if (byte_at 2 b =? 0)%N && (byte_at 3 b =? 0)%N
      then utf_32_le else utf_16_le
    else utf_8
  else if (String.length b =? 2)%nat then
    if (byte_at 0 b =? 0)%N then utf_16_be
    else if (byte_at 1 b =? 0)%N then utf_16_le
    else utf_8
  else utf_8.

(** [s[n:]] *)
Fixpoint drop (n : nat) (s : string) : string :=
  match n, s with
  | O, _ => s
  | S n', String _ r => drop n' r
  | S _, EmptyString => EmptyString
  end.

(** The 16-bit units of a UTF-16 byte string, [None] on an odd length. *)
Fixpoint units16 (big_endian : bool) (b : string) : option (list N) :=
  match b with
  | EmptyString => Some []
  | String _ EmptyString => None
  | String b0 (String b1 r) =>
      let u := if big_endian
               then (256 * N_of_ascii b0 + N_of_ascii b1)%N
               else (256 * N_of_ascii b1 + N_of_ascii b0)%N in
      option_map (cons u) (units16 big_endian r)
  end.

Definition is_high_surrogate (n : N) : bool := ((55296 <=? n) && (n <? 56320))%N.
Definition is_low_surrogate (n : N) : bool := ((56320 <=? n) && (n <? 57344))%N.
Definition join_surrogates (hi lo : N) : N :=
  (65536 + N.lor (N.shiftl (hi - 55296) 10) (lo - 56320))%N.

(** Code points of a list of UTF-16 units; an unpaired surrogate is kept
    (the [surrogatepass] error handler). *)
Fixpoint pair_units (l : list N) : list N :=
  match l with
  | [] => []
  | u :: r =>
      match r with
      | u2 :: r2 =>
          if is_high_surrogate u && is_low_surrogate u2
          then join_surrogates u u2 :: pair_units r2
          else u :: pair_units r
      | [] => [u]
      end
  end.

(** The code points of a UTF-32 byte string, [None] when the length is no
    multiple of four or a value is beyond U+10FFFF. *)
Fixpoint units32 (big_endian : bool) (b : string) : option (list N) :=
  match b with
  | EmptyString => Some []
  | String b0 (String b1 (String b2 (String b3 r))) =>
      let n0 := N_of_ascii b0 in
      let n1 := N_of_ascii b1 in
      let n2 := N_of_ascii b2 in
      let n3 := N_of_ascii b3 in
      let u := if big_endian
               then (16777216 * n0 + 65536 * n1 + 256 * n2 + n3)%N
               else (16777216 * n3 + 65536 * n2 + 256 * n1 + n0)%N in
      if (u <? 1114112)%N then option_map (cons u) (units32 big_endian r)
      else None
  | _ => None
  end.

Definition text_of (cps : option (list N)) : result string :=
  match cps with
  | Some l => Ok (String.concat EmptyString (map encode_codepoint l))
  | None => Raise UnicodeDecodeError
  end.

(** [b.decode(detect_encoding(b), 'surrogatepass')], the text again in the
    UTF-8 representation of this development. *)
Definition decode (b : string) : result string :=
  match detect_encoding b with
  | utf_8 => if utf8_valid b then Ok b else Raise UnicodeDecodeError
  | utf_8_sig => if utf8_valid b then Ok (drop 3 b) else Raise UnicodeDecodeError
  | utf_16 =>
      text_of (option_map pair_units
                 (units16 (String.prefix BOM_UTF16_BE b) (drop 2 b)))
  | utf_16_be => text_of (option_map pair_units (units16 true b))
  | utf_16_le => text_of (option_map pair_units (units16 false b))
  | utf_32 => text_of (units32 (String.prefix BOM_UTF32_BE b) (drop 4 b))
  | utf_32_be => text_of (units32 true b)
  | utf_32_le => text_of (units32 false b)
  end.

(** *** The scanner *)

Definition is_ws (c : ascii) : bool :=
  let n := N_of_ascii c in
  ((n =? 32) || (n =? 9) || (n =? 10) || (n =? 13))%N.

Fixpoint skip_ws (s : string) : string :=
  match s with
  | String c r => if is_ws c then skip_ws r else s
  | EmptyString => s
  end.

Definition is_digit (c : ascii) : bool :=
  ((48 <=? N_of_ascii c) && (N_of_ascii c <=? 57))%N.

Definition hex_value (c : ascii) : option N :=
  let n := N_of_ascii c in
  if ((48 <=? n) && (n <=? 57))%N then Some (n - 48)%N
  else if ((97 <=? n) && (n <=? 102))%N then Some (n - 87)%N
  else if ((65 <=? n) && (n <=? 70))%N then Some (n - 55)%N
  else None.

(** The four hexadecimal digits after [\u]. *)
Definition decode_uXXXX (s : string) : result (N * string) :=
  match s with
  | String c0 (String c1 (String c2 (String c3 r))) =>
      match hex_value c0, hex_value c1, hex_value c2, hex_value c3 with
      | Some h0, Some h1, Some h2, Some h3 =>
          Ok ((4096 * h0 + 256 * h1 + 16 * h2 + h3)%N, r)
      | _, _, _, _ => Raise JSONDecodeError
      end
  | _ => Raise JSONDecodeError
  end.

(** The table [BACKSLASH]. *)
Definition simple_escape (e : ascii) : option ascii :=
  if Ascii.eqb e dq then Some dq
  else if Ascii.eqb e backslash then Some backslash
  else if Ascii.eqb e "/" then Some "/"%char
  else if Ascii.eqb e "b" then Some "008"%char
  else if Ascii.eqb e "f" then Some "012"%char
  else if Ascii.eqb e "n" then Some "010"%char
  else if Ascii.eqb e "r" then Some "013"%char
  else if Ascii.eqb e "t" then Some "009"%char
  else None.

(** [scanstring]: [s] starts after the opening quote; the result is the
    decoded string and what follows the closing quote.  Every step consumes a
    character, so fuel above the length of [s] is never used up. *)
Fixpoint scanstring (fuel : nat) (s : string) : result (string * string) :=
  match fuel with
  | O => Raise RecursionError
  | S fuel' =>
      match s with
      | EmptyString => Raise JSONDecodeError
      | String c r =>
          if Ascii.eqb c dq then Ok (EmptyString, r)
          else if Ascii.eqb c backslash then
            match r with
            | EmptyString => Raise JSONDecodeError
            | String e r' =>
                if Ascii.eqb e "u" then
                  '(uni, r2) <- decode_uXXXX r' ;;
                  '(cp, r3) <-
                    (if is_high_surrogate uni then
                       match r2 with
                       | String b (String u r2') =>
                           if Ascii.eqb b backslash && Ascii.eqb u "u" then
                             '(uni2, r4) <- decode_uXXXX r2' ;;
                             if is_low_surrogate uni2
                             then Ok (join_surrogates uni uni2, r4)
                             else Ok (uni, r2)
                           else Ok (uni, r2)
                       | _ => Ok (uni, r2)
                       end
                     else Ok (uni, r2)) ;;
                  '(tail, rest) <- scanstring fuel' r3 ;;
                  Ok (encode_codepoint cp ++ tail, rest)
                else
                  match simple_escape e with
                  | Some ch =>
                      '(tail, rest) <- scanstring fuel' r' ;;
                      Ok (String ch tail, rest)
                  | None => Raise JSONDecodeError
                  end
            end
          else if (N_of_ascii c <? 32)%N then Raise JSONDecodeError
          else
            '(tail, rest) <- scanstring fuel' r ;;
            Ok (String c tail, rest)
      end
  end.

Fixpoint span_digits (s : string) : string * string :=
  match s with
  | String c r =>
      if is_digit c then let (ds, rest) := span_digits r in (String c ds, rest)
      else (EmptyString, s)
  | EmptyString => (EmptyString, s)
  end.

Fixpoint digits_value (acc : Z) (ds : string) : Z :=
  match ds with
  | EmptyString => acc
  | String c r => digits_value (10 * acc + Z.of_N (N_of_ascii c - 48))%Z r
  end.

(** [NUMBER_RE.match]: an optional minus sign; a zero, or a digit from 1 to
    9 and any digits; optionally a dot and one digit or more; optionally an
    [e] or [E], an optional sign and one digit or more.  An integer part alone
    is an [int], anything longer a [float]. *)
Definition match_number (s : string) : option (json * string) :=
  let (sign, s1) :=
    match s with
    | String c r => if Ascii.eqb c "-" then ("-", r) else (EmptyString, s)
    | EmptyString => (EmptyString, s)
    end in
  let integer :=
    match s1 with
    | String c r =>
        if Ascii.eqb c "0" then Some ("0", r)
        else if is_digit c then Some (span_digits s1)
        else None
    | EmptyString => None
    end in
  match integer with
  | None => None
  | Some (int_digits, s2) =>
      let (frac, s3) :=
        match s2 with
        | String c r =>
            if Ascii.eqb c "." then
              match span_digits r with
              | (EmptyString, _) => (EmptyString, s2)
              | (ds, rest) => (String c ds, rest)
              end
            else (EmptyString, s2)
        | EmptyString => (EmptyString, s2)
        end in
      let (exp, s4) :=
        match s3 with
        | String c r =>
            if Ascii.eqb c "e" || Ascii.eqb c "E" then
              let (esign, r') :=
                match r with
                | String g r0 =>
                    if Ascii.eqb g "-" || Ascii.eqb g "+"
                    then (String g EmptyString, r0)
                    else (EmptyString, r)
                | EmptyString => (EmptyString, r)
                end in
              match span_digits r' with
              | (EmptyString, _) => (EmptyString, s3)
              | (ds, rest) => (String c (esign ++ ds), rest)
              end
            else (EmptyString, s3)
        | EmptyString => (EmptyString, s3)
        end in
      if truthy frac || truthy exp
      then Some (JFloat (sign ++ int_digits ++ frac ++ exp), s4)
      else
        let v := digits_value 0 int_digits in
        Some (JInt (if truthy sign then (- v)%Z else v), s4)
  end.

(** [scan_once] with [JSONObject] and [JSONArray] (their loops are
    [object_loop] and [array_loop]).  A call either consumes a character or is
    followed by one that does, so fuel above twice the length of the text is
    never used up; running out stands for the interpreter's recursion
    limit. *)
Fixpoint scan_once (fuel : nat) (s : string) {struct fuel}
  : result (json * string) :=
  match fuel with
  | O => Raise RecursionError
  | S fuel' =>
      match s with
      | EmptyString => Raise JSONDecodeError
      | String c r =>
          if Ascii.eqb c dq then
            '(str, rest) <- scanstring (S (String.length r)) r ;;
            Ok (JString str, rest)
          else if Ascii.eqb c "{" then
            match skip_ws r with
            | String c1 r1 =>
                if Ascii.eqb c1 "}" then Ok (JObject [], r1)
                else if Ascii.eqb c1 dq then object_loop fuel' r1 []
                else Raise JSONDecodeError
            | EmptyString => Raise JSONDecodeError
            end
          else if Ascii.eqb c "[" then
            match skip_ws r with
            | String c1 r1 =>
                if Ascii.eqb c1 "]" then Ok (JArray [], r1)
                else array_loop fuel' (String c1 r1) []
            | EmptyString => Raise JSONDecodeError
            end
          else if String.prefix "null" s then Ok (JNull, drop 4 s)
          else if String.prefix "true" s then Ok (JBool true, drop 4 s)
          else if String.prefix "false" s then Ok (JBool false, drop 5 s)
          else
            match match_number s with
            | Some vr => Ok vr
            | None =>
                if String.prefix "NaN" s then Ok (JFloat "NaN", drop 3 s)
                else if String.prefix "Infinity" s
                then Ok (JFloat "Infinity", drop 8 s)
                else if String.prefix "-Infinity" s
                then Ok (JFloat "-Infinity", drop 9 s)
                else Raise JSONDecodeError
            end
      end
  end

with object_loop (fuel : nat) (s : string) (pairs : list (string * json))
  {struct fuel} : result (json * string) :=
  match fuel with
  | O => Raise RecursionError
  | S fuel' =>
      '(key, r1) <- scanstring (S (String.length s)) s ;;
      match skip_ws r1 with
      | String c2 r2 =>
          if Ascii.eqb c2 ":" then
            '(value, r3) <- scan_once fuel' (skip_ws r2) ;;
            let pairs' := (key, value) :: pairs in
            match skip_ws r3 with
            | String c4 r4 =>
                if Ascii.eqb c4 "}"
                then Ok (JObject (PyDict.of_pairs (rev pairs')), r4)
                else if Ascii.eqb c4 "," then
                  match skip_ws r4 with
                  | String c5 r5 =>
                      if Ascii.eqb c5 dq then object_loop fuel' r5 pairs'
                      else Raise JSONDecodeError
                  | EmptyString => Raise JSONDecodeError
                  end
                else Raise JSONDecodeError
            | EmptyString => Raise JSONDecodeError
            end
          else Raise JSONDecodeError
      | EmptyString => Raise JSONDecodeError
      end
  end

with array_loop (fuel : nat) (s : string) (values : list json)
  {struct fuel} : result (json * string) :=
  match fuel with
  | O => Raise RecursionError
  | S fuel' =>
      '(value, r1) <- scan_once fuel' s ;;
      let values' := value :: values in
      match skip_ws r1 with
      | String c2 r2 =>
          if Ascii.eqb c2 "]" then Ok (JArray (rev values'), r2)
          else if Ascii.eqb c2 "," then array_loop fuel' (skip_ws r2) values'
          else Raise JSONDecodeError
      | EmptyString => Raise JSONDecodeError
      end
  end.

(** [JSONDecoder.decode]: one value between optional white space. *)
Definition decode_text (s : string) : result json :=
  '(obj, rest) <- scan_once (2 * String.length s + 2) (skip_ws s) ;;
  match skip_ws rest with
  | EmptyString => Ok obj
  | String _ _ => Raise JSONDecodeError
  end.

(** [json.loads(b)] for [b : bytes] *)
Definition loads (b : string) : result json :=
  s <- decode b ;;
  decode_text s.

(** What the scanner owes for the text [s]: a result leaves less text than
    [s], an error is a decoding error. *)
Definition scan_ok {A : Type} (res : result (A * string)) (s : string) : Prop :=
  match res with
  | Ok (_, rest) => String.length rest < String.length s
  | Raise e => e = JSONDecodeError
  end.

End PyJson.

(** ** The [http.server] module of the Python standard library

    What [BaseHTTPRequestHandler] does around the methods of a handler class,
    as CPython 3.11 has it.  A request is taken after [parse_request]
    accepted it (an HTTP/1.x request line); the [Server] and [Date] headers
    that [send_response] adds on its own are left out. *)

Module HttpServer.

Import PyStr.

Inductive action : Type :=
| Write (b : string)
| Flush
| Sleep (seconds : Q).

(** The parts of a parsed request that the handlers read: [self.command],
    [self.path], the [Content-Length] header (a number where present, as HTTP
    requires) and the bytes the client sends after the headers. *)
Record request : Type := {
  command : string;
  path : string;
  content_length : option nat;
  rfile : string
}.

(** What a handler has sent: the status line, the headers in order, and the
    actions on [wfile] after the headers. *)
Record reply : Type := {
  status : option (Z * string);
  headers : list (string * string);
  wfile : list action
}.

Definition no_reply : reply := {| status := None; headers := []; wfile := [] |}.

(** The entries of [BaseHTTPRequestHandler.responses] that this server
    reaches: code, short message, long message. *)
Definition responses (code : Z) : option (string * string) :=
  if (code =? 200)%Z then Some ("OK", "Request fulfilled, document follows")
  else if (code =? 404)%Z
  then Some ("Not Found", "Nothing matches the given URI")
  else if (code =? 501)%Z
  then Some ("Not Implemented", "Server does not support this operation")
  else None.

Definition send_response (code : Z) (message : option string) (r : reply)
  : reply :=
  let message :=
    match message with
    | Some m => m
    | None => match responses code with
              | Some (shortmsg, _) => shortmsg
              | None => EmptyString
              end
    end in
  {| status := Some (code, message); headers := headers r; wfile := wfile r |}.

Definition send_header (keyword value : string) (r : reply) : reply :=
  {| status := status r;
     headers := (headers r ++ [(keyword, value)])%list;
     wfile := wfile r |}.

Definition end_headers (r : reply) : reply := r.

Definition wfile_do (a : list action) (r : reply) : reply :=
  {| status := status r; headers := headers r; wfile := (wfile r ++ a)%list |}.

(** [html.escape(s, quote=False)] *)
Fixpoint html_escape (s : string) : string :=
  match s with
  | EmptyString => EmptyString
  | String c r =>
      (if Ascii.eqb c "&" then "&amp;"
       else if Ascii.eqb c "<" then "&lt;"
       else if Ascii.eqb c ">" then "&gt;"
       else String c EmptyString) ++ html_escape r
  end.

(** [DEFAULT_ERROR_MESSAGE % {'code': code, 'message': message,
    'explain': explain}] *)
Definition error_message_format (code : Z) (message explain : string)
  : string :=
  "<!DOCTYPE HTML>" ++ nl ++
  "<html lang=" ++ q "en" ++ ">" ++ nl ++
  "    <head>" ++ nl ++
  "        <meta charset=" ++ q "utf-8" ++ ">" ++ nl ++
  "        <title>Error response</title>" ++ nl ++
  "    </head>" ++ nl ++
  "    <body>" ++ nl ++
  "        <h1>Error response</h1>" ++ nl ++
  "        <p>Error code: " ++ of_int code ++ "</p>" ++ nl ++
  "        <p>Message: " ++ message ++ ".</p>" ++ nl ++
  "        <p>Error code explanation: " ++ of_int code ++ " - " ++ explain
    ++ ".</p>" ++ nl ++
  "    </body>" ++ nl ++
  "</html>" ++ nl.

Definition DEFAULT_ERROR_CONTENT_TYPE : string := "text/html;charset=utf-8".

(** [self.send_error(code, message)] *)
Definition send_error (req : request) (code : Z) (message : option string)
  (r : reply) : reply :=
  let (shortmsg, longmsg) :=
    match responses code with
    | Some sl => sl
    | None => ("???", "???")
    end in
  let message := match message with Some m => m | None => shortmsg end in
  let explain := longmsg in
  let r := send_response code (Some message) r in
  let r := send_header "Connection" "close" r in
  let body :=
    if ((200 <=? code) && negb ((code =? 204) || (code =? 205) || (code =? 304)))%Z
    then Some (error_message_format code (html_escape message)
                 (html_escape explain))
    else None in
  let r :=
    match body with
    | Some b =>
        send_header "Content-Length"
          (of_int (Z.of_nat (String.length b)))
          (send_header "Content-Type" DEFAULT_ERROR_CONTENT_TYPE r)
    | None => r
    end in
  let r := end_headers r in
  match body with
  | Some b =>
      if negb (String.eqb (command req) "HEAD") && truthy b
      then wfile_do [Write b] r
      else r
  | None => r
  end.

Definition hex2 (n : N) : string :=
  String (PyJson.hex_digit (N.land (N.shiftr n 4) 15))
    (String (PyJson.hex_digit (N.land n 15)) EmptyString).

(** [repr(s)] for the text of a request line, which is decoded as Latin-1:
    in that range the characters that are not printable are the controls,
    U+007F to U+00A0 and U+00AD. *)
Definition repr (s : string) : string :=
  let cps := codepoints s in
  let has c := existsb (N.eqb c) cps in
  let quote := if has 39%N && negb (has 34%N) then 34%N else 39%N in
  let esc (n : N) : string :=
    if ((n =? quote) || (n =? 92))%N
    then String backslash (String (ascii_of_N n) EmptyString)
    else if (n =? 9)%N then String backslash "t"
    else if (n =? 10)%N then String backslash "n"
    else if (n =? 13)%N then String backslash "r"
    else if ((n <? 32) || ((127 <=? n) && (n <=? 160)) || (n =? 173))%N
    then String backslash ("x" ++ hex2 n)
    else encode_codepoint n in
  String (ascii_of_N quote)
    (String.concat EmptyString (map esc cps)
     ++ String (ascii_of_N quote) EmptyString).

(** A handler class: its [do_*] methods by name.  A method reads the request
    and the clock and extends the reply, or raises. *)
Definition method : Type :=
  request -> (nat -> Z) -> reply -> result reply.

Definition handler_class : Type := list (string * method).

Fixpoint getattr (cls : handler_class) (mname : string) : option method :=
  match cls with
  | [] => None
  | (name, m) :: rest => if String.eqb mname name then Some m else getattr rest mname
  end.

(** [handle_one_request] once the request is parsed: the method named after
    the command, or the reply 501 when the class has none.  An exception that
    a method raises leaves the handler; [socketserver] reports it on the
    server's side and closes the connection. *)
Definition handle_one_request (cls : handler_class) (req : request)
  (clock : nat -> Z) : result reply :=
  let mname := "do_" ++ command req in
  match getattr cls mname with
  | None =>
      Ok (send_error req 501
            (Some ("Unsupported method (" ++ repr (command req) ++ ")"))
            no_reply)
  | Some m => m req clock no_reply
  end.

End HttpServer.

(** ** The mock server, [demo/mock-server.py] *)

Import PyStr HttpServer.

Definition PORT : Z := 1234.
Definition MODEL_ID : string := "demo-model-7b".
Definition CHUNK_DELAY : Q := 3 # 100.

(** *** Canned responses *)

Definition TOOL_CALL_READ_FILE : string :=
  "Let me start by reading the README to understand this project." ++ nl ++ nl
  ++ "<tool_call>{" ++ q "name" ++ ":" ++ q "read_file" ++ ","
  ++ q "arguments" ++ ":{" ++ q "path" ++ ":" ++ q "README.md"
  ++ "}}</tool_call>".

Definition TOOL_CALL_LIST_DIR : string :=
  "Good, I can see the README. Let me also check the project structure."
  ++ nl ++ nl
  ++ "<tool_call>{" ++ q "name" ++ ":" ++ q "list_directory" ++ ","
  ++ q "arguments" ++ ":{" ++ q "path" ++ ":" ++ q "." ++ "}}</tool_call>".

Definition FINAL_SUMMARY : string :=
  "Here's a summary of the **OpenOrca** project:" ++ nl ++ nl ++
  "**OpenOrca** is an autonomous AI coding agent that runs in your " ++
  "terminal. It connects to local LLM servers like LM Studio or Ollama " ++
  "via an OpenAI-compatible API and uses **31 built-in tools** to read, " ++
  "write, and execute code autonomously." ++ nl ++ nl ++
  "**Key highlights:**" ++ nl ++ nl ++
  "- **Autonomous agent loop** — plans, acts, observes, and iterates up " ++
  "to 25 turns per request" ++ nl ++
  "- **31 tools** — file I/O, shell execution, git operations, web " ++
  "search, GitHub integration, and sub-agent spawning" ++ nl ++
  "- **Works with any local model** — Mistral, Llama, DeepSeek, Qwen, " ++
  "and more" ++ nl ++
  "- **Smart tool calling** — auto-detects native function calling " ++
  "support, falls back to text-based `<tool_call>` tags" ++ nl ++
  "- **Rich CLI** — streaming output, thinking indicator, slash " ++
  "commands, session management, context compaction" ++ nl ++
  "- **Privacy-first** — everything runs locally, no data leaves your " ++
  "machine" ++ nl ++ nl ++
  "The project is structured as a .NET 9 solution with three main " ++
  "assemblies: `OpenOrca.Cli` (console UI), `OpenOrca.Core` (domain " ++
  "logic), and `OpenOrca.Tools` (tool implementations). It's MIT " ++
  "licensed and designed as a local, open-source alternative to " ++
  "cloud-based AI coding assistants.".

(** The delimiters of the text-based tool call convention that the two
    action-request bodies use. *)
Definition TOOL_CALL_OPEN : string := "<tool_call>".
Definition TOOL_CALL_CLOSE : string := "</tool_call>".

(** *** [make_sse_chunk] *)

(** The dictionary [payload] that [make_sse_chunk] builds; [now] is
    [int(time.time())]. *)
Definition make_sse_chunk_payload (content : string)
  (finish_reason : option string) (now : Z) : json :=
  let delta : dict := [] in
  let delta :=
    if truthy content then PyDict.set "content" (JString content) delta
    else delta in
  let choice : dict := [("index", JInt 0); ("delta", JObject delta)] in
  let choice :=
    match finish_reason with
    | Some reason =>
        if truthy reason
        then PyDict.set "finish_reason" (JString reason) choice
        else choice
    | None => choice
    end in
  JObject [("id", JString "chatcmpl-demo");
           ("object", JString "chat.completion.chunk");
           ("created", JInt now);
           ("model", JString MODEL_ID);
           ("choices", JArray [JObject choice])].

(** The framing of one event: [f"data: {json.dumps(payload)}\n\n"]. *)
Definition sse_data (payload : json) : string :=
  "data: " ++ PyJson.dumps payload ++ nl ++ nl.

Definition make_sse_chunk (content : string) (finish_reason : option string)
  (now : Z) : string :=
  sse_data (make_sse_chunk_payload content finish_reason now).

(** *** [stream_text] *)

Definition DONE : string := "data: [DONE]" ++ nl ++ nl.

(** The fragment of the word at position [i]. *)
Definition token (i : nat) (word : string) : string :=
  if (i =? 0)%nat then word else " " ++ word.

(** [stream_text(wfile, text)]: the actions it adds to [wfile].  The chunk at
    position [i] reads the clock for the [i]-th time, the final chunk after
    all of them. *)
Definition stream_text (wfile : list action) (text : string)
  (clock : nat -> Z) : list action :=
  let words := split " " text in
  let wfile :=
    fold_left
      (fun wfile iw =>
         let '(i, word) := iw in
         let chunk := make_sse_chunk (token i word) None (clock i) in
         (wfile ++ [Write chunk; Flush; Sleep CHUNK_DELAY])%list)
      (enumerate words) wfile in
  let final := make_sse_chunk EmptyString (Some "stop") (clock (length words)) in
  (wfile ++ [Write final; Write DONE; Flush])%list.

(** *** [MockHandler] *)

Definition _handle_models (now : Z) (r : reply) : reply :=
  let body :=
    PyJson.dumps
      (JObject [("object", JString "list");
                ("data",
                 JArray [JObject [("id", JString MODEL_ID);
                                  ("object", JString "model");
                                  ("created", JInt now);
                                  ("owned_by", JString "demo")]])]) in
  let r := send_response 200 None r in
  let r := send_header "Content-Type" "application/json" r in
  let r := end_headers r in
  wfile_do [Write body] r.

(** [body.get(key, default)]: only a [dict] has the method. *)
Definition py_get (body : json) (key : string) (default : json) : result json :=
  match body with
  | JObject d =>
      match PyDict.get key d with
      | Some v => Ok v
      | None => Ok default
      end
  | _ => Raise AttributeError
  end.

(** What a [for] over a decoded JSON value goes through: the items of a
    list, the characters of a string, the keys of a dictionary; nothing else
    is iterable. *)
Definition py_iter (v : json) : result (list json) :=
  match v with
  | JArray items => Ok items
  | JString s => Ok (map (fun n => JString (encode_codepoint n)) (codepoints s))
  | JObject d => Ok (map (fun kv => JString (fst kv)) d)
  | _ => Raise TypeError
  end.

(** [m.get("role") == "tool"] *)
Definition role_is_tool (m : json) : result bool :=
  role <- py_get m "role" JNull ;;
  match role with
  | JString s => Ok (String.eqb s "tool")
  | _ => Ok false
  end.

(** [sum(1 for m in messages if m.get("role") == "tool")] over the items
    that the iteration yields. *)
Fixpoint sum_tool (items : list json) : result nat :=
  match items with
  | [] => Ok 0%nat
  | m :: rest =>
      b <- role_is_tool m ;;
      n <- sum_tool rest ;;
      Ok ((if b then 1 else 0) + n)%nat
  end.

(** The canned response for a count of tool messages. *)
Definition pick_response (tool_msg_count : nat) : string :=
  if (tool_msg_count =? 0)%nat then TOOL_CALL_READ_FILE
  else if (tool_msg_count =? 1)%nat then TOOL_CALL_LIST_DIR
  else FINAL_SUMMARY.

(** The body bytes read: [rfile.read(length)] with the length of the
    [Content-Length] header, 0 without one. *)
Definition read_body (req : request) : string :=
  let length :=
    match content_length req with
    | Some n => n
    | None => 0%nat
    end in
  String.substring 0 length (rfile req).

(** [json.loads(raw) if raw else {}] *)
Definition request_body (raw : string) : result json :=
  if truthy raw then PyJson.loads raw else Ok (JObject []).

(** [_handle_completions].  Every exception it can raise is raised before
    [send_response], so [Raise] means that nothing was sent. *)
Definition _handle_completions (req : request) (clock : nat -> Z)
  (r : reply) : result reply :=
  let raw := read_body req in
  body <- request_body raw ;;
  messages <- py_get body "messages" (JArray []) ;;
  items <- py_iter messages ;;
  tool_msg_count <- sum_tool items ;;
  let response_text := pick_response tool_msg_count in
  let r := send_response 200 None r in
  let r := send_header "Content-Type" "text/event-stream" r in
  let r := send_header "Cache-Control" "no-cache" r in
  let r := send_header "Connection" "keep-alive" r in
  let r := end_headers r in
  Ok {| status := status r;
        headers := headers r;
        wfile := stream_text (wfile r) response_text clock |}.

Definition do_GET : method := fun req clock r =>
  if String.eqb (path req) "/v1/models"
  then Ok (_handle_models (clock 0%nat) r)
  else Ok (send_error req 404 None r).

Definition do_POST : method := fun req clock r =>
  if String.eqb (path req) "/v1/chat/completions"
  then _handle_completions req clock r
  else Ok (send_error req 404 None r).

Definition MockHandler : handler_class :=
  [("do_GET", do_GET); ("do_POST", do_POST)].

(** The server on one parsed request. *)
Definition serve (req : request) (clock : nat -> Z) : result reply :=
  handle_one_request MockHandler req clock.

(** ** Reading a stream back

    The views of a reply that the properties below are stated on. *)

(** The byte strings written to [wfile], in order. *)
Fixpoint writes (t : list action) : list string :=
  match t with
  | [] => []
  | Write b :: rest => b :: writes rest
  | _ :: rest => writes rest
  end.

(** [v[k]] of a decoded JSON object, where present. *)
Definition field (k : string) (v : json) : option json :=
  match v with
  | JObject d => PyDict.get k d
  | _ => None
  end.

(** [payload["choices"][0]] *)
Definition first_choice (payload : json) : option json :=
  match field "choices" payload with
  | Some (JArray (c :: _)) => Some c
  | _ => None
  end.

Definition delta_of (payload : json) : option json :=
  match first_choice payload with
  | Some c => field "delta" c
  | None => None
  end.

(** [delta.content], where the key is present. *)
Definition delta_content (payload : json) : option json :=
  match delta_of payload with
  | Some d => field "content" d
  | None => None
  end.

Definition finish_reason_of (payload : json) : option json :=
  match first_choice payload with
  | Some c => field "finish_reason" c
  | None => None
  end.

(** The text a client appends for one chunk: the content of its delta, and
    nothing when the delta has none. *)
Definition content_text (payload : json) : string :=
  match delta_content payload with
  | Some (JString s) => s
  | _ => EmptyString
  end.

(** The payloads of the chunks that [stream_text] sends for the words, and
    of its final chunk. *)
Definition content_payloads (text : string) (clock : nat -> Z) : list json :=
  map (fun iw => make_sse_chunk_payload (token (fst iw) (snd iw)) None
                   (clock (fst iw)))
    (enumerate (split " " text)).

Definition final_payload (text : string) (clock : nat -> Z) : json :=
  make_sse_chunk_payload EmptyString (Some "stop")
    (clock (length (split " " text))).

(** [c] occurs in [s]; the number of its occurrences. *)
Fixpoint has_char (c : ascii) (s : string) : bool :=
  match s with
  | EmptyString => false
  | String x r => Ascii.eqb x c || has_char c r
  end.

Fixpoint count_char (c : ascii) (s : string) : nat :=
  match s with
  | EmptyString => 0
  | String x r => (if Ascii.eqb x c then 1 else 0) + count_char c r
  end.

(** The first word of the text is empty: the text is empty or begins with
    a space. *)
Definition leading_word_empty (text : string) : bool :=
  match text with
  | EmptyString => true
  | String c _ => Ascii.eqb c " "
  end.

(** The delta of a chunk carries a content that is not empty. *)
Definition has_content (payload : json) : Prop :=
  exists s, delta_content payload = Some (JString s) /\ s <> EmptyString.

(** *** Requests

    The number of messages whose role equals [tool], as the specification
    words it: the messages are dictionaries, and one counts when it has the
    key [role] with the string [tool] as value. *)

Definition is_dict (m : json) : bool :=
  match m with
  | JObject _ => true
  | _ => false
  end.

Definition has_role_tool (m : json) : bool :=
  match field "role" m with
  | Some (JString s) => String.eqb s "tool"
  | _ => false
  end.

Definition count_tool_messages (messages : list json) : nat :=
  length (filter has_role_tool messages).

(** A request for the completion route, and the reply that streams [text]:
    status 200, the three headers of an event stream, the stream. *)
Definition completion_request (content_length : option nat) (rfile : string)
  : request :=
  {| command := "POST"; path := "/v1/chat/completions";
     content_length := content_length; rfile := rfile |}.

Definition completion_reply (text : string) (clock : nat -> Z) : reply :=
  {| status := Some (200%Z, "OK");
     headers := [("Content-Type", "text/event-stream");
                 ("Cache-Control", "no-cache");
                 ("Connection", "keep-alive")];
     wfile := stream_text [] text clock |}.

(** A body that carries an empty list of messages. *)
Definition EMPTY_MESSAGES_BODY : string :=
  "{" ++ q "messages" ++ ": []}".

(** What a client reads from one event: nothing for the sentinel, else the
    JSON text between [data: ] and the blank line, decoded. *)
Definition decode_event (line : string) : option (result json) :=
  if String.eqb line DONE then None
  else Some (PyJson.loads
               (String.substring 6 (String.length line - 8) line)).

(** A clock for the examples: one second per reading. *)
Definition example_clock (k : nat) : Z := (1700000000 + Z.of_nat k)%Z.

(** *** Pacing *)

(** The pauses taken on a trace, in order. *)
Fixpoint sleeps (t : list action) : list Q :=
  match t with
  | [] => []
  | Sleep d :: rest => d :: sleeps rest
  | _ :: rest => sleeps rest
  end.

(** *** The line that [_handle_completions] prints *)

(** [len(s)]: the number of code points. *)
Definition py_len (s : string) : nat := length (codepoints s).

(** The diagnostic line of [_handle_completions], printed to [stderr] once
    the response is picked. *)
Definition completion_log (tool_msg_count : nat) (response_text : string)
  : string :=
  "[mock-server] tool_messages=" ++ of_int (Z.of_nat tool_msg_count)
  ++ ", responding with "
  ++ (if (tool_msg_count <? 2)%nat then "tool_call" else "summary")
  ++ " (" ++ of_int (Z.of_nat (py_len response_text)) ++ " chars)".

(** *** [main]: the port

    How [main] gets to its server: [HTTPServer] is created on a port, or an
    exception leaves [main] before. *)

Inductive startup : Type :=
| Bind (port : Z)
| IndexError
| ValueError.

(** [argv.index(x)], [None] when [x] does not occur (Python raises). *)
Fixpoint list_index (x : string) (argv : list string) : option nat :=
  match argv with
  | [] => None
  | a :: rest =>
      if String.eqb a x then Some 0%nat
      else option_map S (list_index x rest)
  end.

(** The first lines of [main], up to the call of [HTTPServer].  The builtin
    [int] is a parameter: [None] where it raises [ValueError]. *)
Definition main_port (int : string -> option Z) (argv : list string)
  : startup :=
  let port := PORT in
  if existsb (fun a => String.eqb a "--port") argv then
    match list_index "--port" argv with
    | Some idx =>
        match nth_error argv (idx + 1) with
        | Some a =>
            match int a with
            | Some port => Bind port
            | None => ValueError
            end
        | None => IndexError
        end
    | None => ValueError
    end
  else Bind port.

(** A history of [n] tool messages, printed as the body of a request. *)
Definition tool_history_body (n : nat) : string :=
  PyJson.dumps (JObject [("messages",
                   JArray (repeat (JObject [("role", JString "tool")]) n))]).

(** ** Text on the wire and values that survive it

    The events of a stream and the body of the model listing are printed by
    [json.dumps]; a client reads them back with [json.loads].  The
    definitions below say which texts and which values are carried over
    unchanged, and name the pieces of a printed document that the scanner
    goes through. *)

Module JsonText.

Import PyJson.

(** A printable ASCII character, U+0020 to U+007E. *)
Definition printable (c : ascii) : bool :=
  ((32 <=? N_of_ascii c) && (N_of_ascii c <=? 126))%N.

(** Every character of [s] passes [p]. *)
Fixpoint all_chars (p : ascii -> bool) (s : string) : bool :=
  match s with
  | EmptyString => true
  | String c r => p c && all_chars p r
  end.

(** Text: well-formed UTF-8 that holds no surrogate code point, which is
    what [str.encode('utf-8')] accepts. *)
Definition is_surrogate (n : N) : bool :=
  is_high_surrogate n || is_low_surrogate n.

Definition utf8_strict (s : string) : bool :=
  utf8_valid s && forallb (fun n => negb (is_surrogate n)) (codepoints s).

(** No key occurs twice. *)
Fixpoint distinct (keys : list string) : bool :=
  match keys with
  | [] => true
  | k :: rest => negb (existsb (String.eqb k) rest) && distinct rest
  end.

(** The values that [json.dumps] and [json.loads] carry over unchanged:
    no float, strings and keys that are text, keys that differ within an
    object. *)
Fixpoint plain (v : json) : bool :=
  match v with
  | JNull | JBool _ | JInt _ => true
  | JFloat _ => false
  | JString s => utf8_strict s
  | JArray items => forallb plain items
  | JObject members =>
      forallb utf8_strict (map fst members)
      && distinct (map fst members)
      && forallb (fun kv => plain (snd kv)) members
  end.

(** No float occurs in the value: [dumps] prints a float by its lexeme,
    which the model leaves open. *)
Fixpoint float_free (v : json) : bool :=
  match v with
  | JFloat _ => false
  | JArray items => forallb float_free items
  | JObject members => forallb (fun kv => float_free (snd kv)) members
  | _ => true
  end.

(** Induction on a JSON value, with the items of a list and the members of
    an object as smaller values. *)
Section JsonInduction.

Variable P : json -> Prop.
Hypothesis P_null : P JNull.
Hypothesis P_bool : forall b, P (JBool b).
Hypothesis P_int : forall z, P (JInt z).
Hypothesis P_float : forall lexeme, P (JFloat lexeme).
Hypothesis P_string : forall s, P (JString s).
Hypothesis P_array : forall items, Forall P items -> P (JArray items).
Hypothesis P_object :
  forall members, Forall (fun kv => P (snd kv)) members -> P (JObject members).

Fixpoint json_induction (v : json) : P v :=
  match v with
  | JNull => P_null
  | JBool b => P_bool b
  | JInt z => P_int z
  | JFloat lexeme => P_float lexeme
  | JString s => P_string s
  | JArray items =>
      P_array items
        ((fix all (l : list json) : Forall P l :=
            match l with
            | [] => Forall_nil P
            | x :: r => Forall_cons x (json_induction x) (all r)
            end) items)
  | JObject members =>
      P_object members
        ((fix all (l : list (string * json))
           : Forall (fun kv => P (snd kv)) l :=
            match l with
            | [] => Forall_nil _
            | kv :: r => Forall_cons kv (json_induction (snd kv)) (all r)
            end) members)
  end.

End JsonInduction.

(** The decimal text of a positive number starts with a digit from 1 to 9. *)
Definition nonzero_digit (c : ascii) : bool :=
  is_digit c && negb (Ascii.eqb c "0").

(** What may follow a number in a document without being read as a part of
    it. *)
Definition safe_after (rest : string) : bool :=
  match rest with
  | EmptyString => true
  | String c _ =>
      negb (is_digit c || Ascii.eqb c "." || Ascii.eqb c "e" || Ascii.eqb c "E")
  end.

(** A Unicode scalar value: a code point that is no surrogate. *)
Definition scalar (n : N) : bool :=
  (n <? 1114112)%N && negb (is_surrogate n).

(** The scanner's result with the character [cp] put in front. *)
Definition keep (cp : N) (x : string * string) : result (string * string) :=
  let '(t, rest) := x in Ok (encode_codepoint cp ++ t, rest).

(** The inside of a printed string: each character by its replacement. *)
Definition escaped (cps : list N) : string :=
  String.concat EmptyString (map escape_codepoint cps).

(** One member of a printed object. *)
Definition member_text (kv : string * json) : string :=
  encode_basestring_ascii (fst kv) ++ ": " ++ dumps (snd kv).

(** What follows an item of a printed list or object: the closing bracket,
    or the separator and the items left. *)
Definition rest_items (texts : list string) (close rest : string) : string :=
  match texts with
  | [] => close ++ rest
  | _ :: _ => ", " ++ String.concat ", " texts ++ close ++ rest
  end.

(** The first character of a printed value: no white space, no closing
    bracket. *)
Definition value_start (c : ascii) : bool :=
  negb (is_ws c) && negb (Ascii.eqb c "]") && negb (Ascii.eqb c "}").

(** The text that follows the opening quote of a member's key. *)
Definition member_tail (k : string) (x : json) (d : dict) (rest : string)
  : string :=
  escaped (codepoints k)
  ++ String dq (": " ++ dumps x ++ rest_items (map member_text d) "}" rest).

End JsonText.

(** ** Facts about the library models *)

(** *** The scanner always has fuel left

    A result of the scanner leaves less text than it was given, and an
    error of the scanner is a decoding error, never the exhaustion of the
    fuel: with the fuel that [decode_text] passes, the model of [loads] is a
    total function of the bytes. *)

Module PyJsonFacts.

Import PyJson.

Lemma length_skip_ws (s : string) : String.length (skip_ws s) <= String.length s.
Proof.
  induction s as [|c r IH]; simpl; [lia|].
  destruct (is_ws c); simpl; lia.
Qed.

Lemma length_drop (n : nat) (s : string) :
  String.length (drop n s) = String.length s - n.
Proof.
  revert s; induction n as [|n IH]; intros [|c r]; simpl; auto.
Qed.

Lemma length_span_digits (s : string) :
  String.length s
  = String.length (fst (span_digits s)) + String.length (snd (span_digits s)).
Proof.
  induction s as [|c r IH]; simpl; [reflexivity|].
  destruct (is_digit c); simpl; [|reflexivity].
  destruct (span_digits r); simpl in *. lia.
Qed.

Lemma span_digits_digit (c : ascii) (r : string) :
  is_digit c = true ->
  String.length (snd (span_digits (String c r))) <= String.length r.
Proof.
  intros H. simpl. rewrite H.
  pose proof (length_span_digits r). destruct (span_digits r); simpl in *. lia.
Qed.

Lemma match_number_length (s : string) (v : json) (rest : string) :
  match_number s = Some (v, rest) -> String.length rest < String.length s.
Proof.
  unfold match_number.
  destruct s as [|c r]; [discriminate|].
  set (s1 := snd (if Ascii.eqb c "-" then ("-", r) else (EmptyString, String c r))).
  assert (H1 : String.length s1 <= S (String.length r)).
  { unfold s1. destruct (Ascii.eqb c "-"); simpl; lia. }
  destruct (if Ascii.eqb c "-" then ("-", r) else (EmptyString, String c r))
    as [sign s1'] eqn:E1.
  simpl in s1. subst s1.
  destruct s1' as [|c1 r1]; [discriminate|].
  set (integer := if Ascii.eqb c1 "0" then Some ("0", r1)
                  else if is_digit c1 then Some (span_digits (String c1 r1))
                  else None).
  assert (H2 : forall ds s2, integer = Some (ds, s2) ->
                             String.length s2 <= String.length r1).
  { unfold integer. intros ds s2.
    destruct (Ascii.eqb c1 "0"); [intros [= _ <-]; lia|].
    destruct (is_digit c1) eqn:D; [|discriminate].
    intros E. injection E as E.
    assert (s2 = snd (span_digits (String c1 r1))) as ->
      by exact (eq_sym (f_equal snd E)).
    exact (span_digits_digit c1 r1 D). }
  destruct integer as [[int_digits s2]|]; [|discriminate].
  specialize (H2 _ _ eq_refl).
  match goal with
  | |- (let (frac, s3) := ?F in _) = _ -> _ =>
      assert (H3 : String.length (snd F) <= String.length s2);
      [| destruct F as [frac s3]; simpl in H3]
  end.
  { destruct s2 as [|c2 r2]; simpl; [lia|].
    destruct (Ascii.eqb c2 "."); simpl; [|lia].
    pose proof (length_span_digits r2).
    destruct (span_digits r2) as [[|d ds] rest']; simpl in *; lia. }
  match goal with
  | |- (let (exp, s4) := ?F in _) = _ -> _ =>
      assert (H4 : String.length (snd F) <= String.length s3);
      [| destruct F as [exp s4]; simpl in H4]
  end.
  { destruct s3 as [|c3 r3]; simpl; [lia|].
    destruct (Ascii.eqb c3 "e" || Ascii.eqb c3 "E"); simpl; [|lia].
    match goal with
    | |- context [let (esign, r') := ?G in _] =>
        assert (H5 : String.length (snd G) <= String.length r3);
        [| destruct G as [esign r']; simpl in H5]
    end.
    { destruct r3 as [|g r0]; simpl; [lia|].
      destruct (Ascii.eqb g "-" || Ascii.eqb g "+"); simpl; lia. }
    pose proof (length_span_digits r').
    destruct (span_digits r') as [[|d ds] rest']; simpl in *; lia. }
  destruct (truthy frac || truthy exp); intros [= _ <-]; simpl in *; lia.
Qed.

Lemma decode_uXXXX_length (s : string) (n : N) (rest : string) :
  decode_uXXXX s = Ok (n, rest) -> String.length s = 4 + String.length rest.
Proof.
  unfold decode_uXXXX.
  destruct s as [|c0 [|c1 [|c2 [|c3 r]]]]; try discriminate.
  destruct (hex_value c0), (hex_value c1), (hex_value c2), (hex_value c3);
    try discriminate.
  intros [= _ <-]. reflexivity.
Qed.

Lemma decode_uXXXX_error (s : string) (e : exn) :
  decode_uXXXX s = Raise e -> e = JSONDecodeError.
Proof.
  unfold decode_uXXXX.
  destruct s as [|c0 [|c1 [|c2 [|c3 r]]]]; try (intros [= <-]; reflexivity).
  destruct (hex_value c0), (hex_value c1), (hex_value c2), (hex_value c3);
    try discriminate; intros [= <-]; reflexivity.
Qed.

Lemma scanstring_ok (fuel : nat) (s : string) :
  String.length s < fuel -> scan_ok (scanstring fuel s) s.
Proof.
  revert s; induction fuel as [|fuel IH]; intros s Hf; [lia|].
  cbn [scanstring].
  destruct s as [|c r]; [reflexivity|]. cbn [String.length] in Hf.
  destruct (Ascii.eqb c dq); [cbn; lia|].
  destruct (Ascii.eqb c backslash).
  - destruct r as [|e r']; [reflexivity|]. cbn [String.length] in Hf.
    destruct (Ascii.eqb e "u").
    + destruct (decode_uXXXX r') as [[uni r2]|err] eqn:D;
        [|cbn; now apply decode_uXXXX_error in D].
      apply decode_uXXXX_length in D. cbn [bind].
      match goal with
      | |- scan_ok (bind ?X _) _ =>
          assert (HX : match X with
                       | Ok (_, r3) => String.length r3 <= String.length r2
                       | Raise err => err = JSONDecodeError
                       end)
      end.
      { destruct (is_high_surrogate uni); [|cbn; lia].
        destruct r2 as [|b [|u r2']]; try (cbn; lia).
        destruct (Ascii.eqb b backslash && Ascii.eqb u "u"); [|cbn; lia].
        destruct (decode_uXXXX r2') as [[uni2 r4]|err] eqn:D2;
          [|cbn; now apply decode_uXXXX_error in D2].
        apply decode_uXXXX_length in D2. cbn [bind].
        destruct (is_low_surrogate uni2); cbn in *; lia. }
      match goal with
      | |- scan_ok (bind ?X _) _ => destruct X as [[cp r3]|err]
      end; [|cbn; exact HX].
      cbn [bind]. specialize (IH r3 ltac:(lia)).
      destruct (scanstring fuel r3) as [[tail rest]|err]; cbn in *; [lia|exact IH].
    + destruct (simple_escape e); [|reflexivity].
      specialize (IH r' ltac:(lia)).
      destruct (scanstring fuel r') as [[tail rest]|err]; cbn in *; [lia|exact IH].
  - destruct (N_of_ascii c <? 32)%N; [reflexivity|].
    specialize (IH r ltac:(lia)).
    destruct (scanstring fuel r) as [[tail rest]|err]; cbn in *; [lia|exact IH].
Qed.

Ltac skip_ws_len :=
  repeat match goal with
    | H : skip_ws ?a = _ |- _ =>
        let L := fresh "L" in
        pose proof (length_skip_ws a) as L; rewrite H in L;
        cbn [String.length] in L; revert H
    end; intros.

Lemma scanner_ok (fuel : nat) :
  (forall s, 2 * String.length s + 1 <= fuel -> scan_ok (scan_once fuel s) s)
  /\ (forall s pairs, 2 * String.length s + 2 <= fuel ->
      scan_ok (object_loop fuel s pairs) s)
  /\ (forall s values, 2 * String.length s + 2 <= fuel ->
      scan_ok (array_loop fuel s values) s).
Proof.
  induction fuel as [|fuel [IHs [IHo IHa]]].
  { repeat split; intros; lia. }
  repeat split.
  - intros s Hf. cbn [scan_once].
    destruct s as [|c r]; [reflexivity|]. cbn [String.length] in Hf.
    destruct (Ascii.eqb c dq).
    { pose proof (scanstring_ok (S (String.length r)) r ltac:(lia)) as K.
      destruct (scanstring (S (String.length r)) r) as [[str rest]|err];
        cbn in *; [lia|exact K]. }
    destruct (Ascii.eqb c "{").
    { destruct (skip_ws r) as [|c1 r1] eqn:W; [reflexivity|]. skip_ws_len.
      destruct (Ascii.eqb c1 "}"); [cbn; lia|].
      destruct (Ascii.eqb c1 dq); [|reflexivity].
      specialize (IHo r1 [] ltac:(lia)).
      destruct (object_loop fuel r1 []) as [[v rest]|err]; cbn in *;
        [lia|exact IHo]. }
    destruct (Ascii.eqb c "[").
    { destruct (skip_ws r) as [|c1 r1] eqn:W; [reflexivity|]. skip_ws_len.
      destruct (Ascii.eqb c1 "]"); [cbn; lia|].
      specialize (IHa (String c1 r1) [] ltac:(cbn [String.length]; lia)).
      destruct (array_loop fuel (String c1 r1) []) as [[v rest]|err];
        cbn in *; [lia|exact IHa]. }
    destruct (String.prefix "null" (String c r));
      [cbn [scan_ok]; rewrite length_drop; cbn; lia|].
    destruct (String.prefix "true" (String c r));
      [cbn [scan_ok]; rewrite length_drop; cbn; lia|].
    destruct (String.prefix "false" (String c r));
      [cbn [scan_ok]; rewrite length_drop; cbn; lia|].
    destruct (match_number (String c r)) as [[v rest]|] eqn:M.
    { apply match_number_length in M. exact M. }
    destruct (String.prefix "NaN" (String c r));
      [cbn [scan_ok]; rewrite length_drop; cbn; lia|].
    destruct (String.prefix "Infinity" (String c r));
      [cbn [scan_ok]; rewrite length_drop; cbn; lia|].
    destruct (String.prefix "-Infinity" (String c r));
      [cbn [scan_ok]; rewrite length_drop; cbn; lia|].
    reflexivity.
  - intros s pairs Hf. cbn [object_loop].
    pose proof (scanstring_ok (S (String.length s)) s ltac:(lia)) as K.
    destruct (scanstring (S (String.length s)) s) as [[key r1]|err];
      [|exact K].
    cbn [bind]. cbn [scan_ok] in K.
    destruct (skip_ws r1) as [|c2 r2] eqn:W; [reflexivity|]. skip_ws_len.
    destruct (Ascii.eqb c2 ":"); [|reflexivity].
    pose proof (length_skip_ws r2) as L2.
    specialize (IHs (skip_ws r2) ltac:(lia)).
    destruct (scan_once fuel (skip_ws r2)) as [[value r3]|err]; [|exact IHs].
    cbn [bind]. cbn [scan_ok] in IHs.
    destruct (skip_ws r3) as [|c4 r4] eqn:W3; [reflexivity|]. skip_ws_len.
    destruct (Ascii.eqb c4 "}"); [cbn; lia|].
    destruct (Ascii.eqb c4 ","); [|reflexivity].
    destruct (skip_ws r4) as [|c5 r5] eqn:W4; [reflexivity|]. skip_ws_len.
    destruct (Ascii.eqb c5 dq); [|reflexivity].
    specialize (IHo r5 ((key, value) :: pairs) ltac:(lia)).
    destruct (object_loop fuel r5 ((key, value) :: pairs)) as [[v rest]|err];
      cbn in *; [lia|exact IHo].
  - intros s values Hf. cbn [array_loop].
    specialize (IHs s ltac:(lia)).
    destruct (scan_once fuel s) as [[value r1]|err]; [|exact IHs].
    cbn [bind]. cbn [scan_ok] in IHs.
    destruct (skip_ws r1) as [|c2 r2] eqn:W; [reflexivity|]. skip_ws_len.
    destruct (Ascii.eqb c2 "]"); [cbn; lia|].
    destruct (Ascii.eqb c2 ","); [|reflexivity].
    pose proof (length_skip_ws r2) as L2.
    specialize (IHa (skip_ws r2) (value :: values) ltac:(lia)).
    destruct (array_loop fuel (skip_ws r2) (value :: values))
      as [[v rest]|err]; cbn in *; [lia|exact IHa].
Qed.

Lemma decode_error (b : string) (e : exn) :
  decode b = Raise e -> e = UnicodeDecodeError.
Proof.
  unfold decode, text_of.
  destruct (detect_encoding b);
    repeat match goal with
      | |- context [if ?c then _ else _] => destruct c
      | |- context [match option_map ?f ?x with _ => _ end] => destruct (option_map f x)
      | |- context [match ?x with Some _ => _ | None => _ end] => destruct x
      end; try discriminate; intros [= <-]; reflexivity.
Qed.

(** [loads] never runs out of fuel: what it raises is an error of the
    decoder. *)
Theorem loads_never_out_of_fuel (b : string) :
  PyJson.loads b <> Raise RecursionError.
Proof.
  unfold PyJson.loads.
  destruct (decode b) as [s|e] eqn:D.
  - cbn [bind]. unfold decode_text.
    pose proof (length_skip_ws s) as L.
    pose proof (proj1 (scanner_ok (2 * String.length s + 2)) (skip_ws s)
                  ltac:(lia)) as K.
    destruct (scan_once (2 * String.length s + 2) (skip_ws s))
      as [[obj rest]|e]; cbn in *.
    + destruct (skip_ws rest); discriminate.
    + subst e. discriminate.
  - cbn [bind]. apply decode_error in D. subst e. discriminate.
Qed.


End PyJsonFacts.

(** *** Strings *)

Lemma append_empty_r (s : string) : s ++ EmptyString = s.
Proof. induction s as [|c s IH]; simpl; congruence. Qed.

Lemma append_assoc (a b c : string) : (a ++ b) ++ c = a ++ (b ++ c).
Proof. induction a as [|x a IH]; simpl; congruence. Qed.

Lemma concat_cons (x : string) (xs : list string) :
  String.concat EmptyString (x :: xs) = x ++ String.concat EmptyString xs.
Proof.
  destruct xs as [|y ys]; simpl.
  - now rewrite append_empty_r.
  - reflexivity.
Qed.

Lemma concat_app (xs ys : list string) :
  String.concat EmptyString (xs ++ ys)%list
  = String.concat EmptyString xs ++ String.concat EmptyString ys.
Proof.
  induction xs as [|x xs IH].
  - reflexivity.
  - change ((x :: xs) ++ ys)%list with (x :: (xs ++ ys))%list.
    now rewrite !concat_cons, IH, append_assoc.
Qed.

Lemma truthy_true (s : string) : truthy s = true <-> s <> EmptyString.
Proof. destruct s; simpl; split; congruence. Qed.

Lemma truthy_false (s : string) : truthy s = false <-> s = EmptyString.
Proof. destruct s; simpl; split; congruence. Qed.

(** *** [split] and [enumerate] *)

Lemma split_not_nil (sep : ascii) (s : string) : split sep s <> [].
Proof.
  destruct s as [|c s]; simpl; [discriminate|].
  destruct (Ascii.eqb c sep); [discriminate|].
  destruct (split sep s); discriminate.
Qed.

(** The words joined by the separator give the text back. *)
Lemma join_split (sep : ascii) (s : string) :
  String.concat (String sep EmptyString) (split sep s) = s.
Proof.
  induction s as [|c s IH]; [reflexivity|].
  simpl split. destruct (Ascii.eqb_spec c sep) as [->|Hc].
  - pose proof (split_not_nil sep s) as Hn.
    destruct (split sep s) as [|w ws]; [contradiction|].
    simpl in *. now rewrite IH.
  - pose proof (split_not_nil sep s) as Hn.
    destruct (split sep s) as [|w ws]; [contradiction|].
    destruct ws; simpl in *; now rewrite <- IH.
Qed.

(** No word contains the separator. *)
Lemma split_words_clean (sep : ascii) (s : string) :
  Forall (fun w => has_char sep w = false) (split sep s).
Proof.
  induction s as [|c s IH]; simpl.
  - repeat constructor.
  - destruct (Ascii.eqb c sep) eqn:E.
    + constructor; [reflexivity | assumption].
    + destruct (split sep s) as [|w ws]; [repeat constructor; simpl; now rewrite E|].
      inversion IH; subst. constructor; [simpl; now rewrite E | assumption].
Qed.

(** One word more than there are separators: none is dropped or merged. *)
Lemma split_length (sep : ascii) (s : string) :
  length (split sep s) = S (count_char sep s).
Proof.
  induction s as [|c s IH]; simpl; [reflexivity|].
  destruct (Ascii.eqb c sep); simpl; [now rewrite IH|].
  pose proof (split_not_nil sep s) as Hn.
  destruct (split sep s) as [|w ws]; [contradiction|]. exact IH.
Qed.

Lemma tokens_after_first (k : nat) (ws : list string) :
  map (fun iw => token (fst iw) (snd iw)) (combine (seq (S k) (length ws)) ws)
  = map (append " ") ws.
Proof.
  revert k; induction ws as [|w ws IH]; intros k; [reflexivity|].
  simpl. now rewrite IH.
Qed.

(** The fragments of a text: the first word, then each word after a space. *)
Lemma tokens_of_words (ws : list string) :
  map (fun iw => token (fst iw) (snd iw)) (enumerate ws)
  = match ws with
    | [] => []
    | w :: rest => w :: map (append " ") rest
    end.
Proof.
  unfold enumerate. destruct ws as [|w ws]; [reflexivity|].
  simpl. now rewrite tokens_after_first.
Qed.

Lemma concat_spaced (ws : list string) :
  String.concat EmptyString (map (append " ") ws)
  = match ws with
    | [] => EmptyString
    | _ :: _ => " " ++ String.concat " " ws
    end.
Proof.
  induction ws as [|w ws IH]; [reflexivity|].
  change (map (append " ") (w :: ws)) with ((" " ++ w) :: map (append " ") ws).
  rewrite concat_cons, IH.
  destruct ws as [|w' ws]; simpl.
  - now rewrite append_empty_r.
  - reflexivity.
Qed.

Lemma concat_tokens (text : string) :
  String.concat EmptyString
    (map (fun iw => token (fst iw) (snd iw)) (enumerate (split " " text)))
  = text.
Proof.
  rewrite tokens_of_words.
  pose proof (join_split " " text) as J.
  destruct (split " " text) as [|w ws]; [exact J|].
  rewrite concat_cons, concat_spaced.
  destruct ws as [|w' ws]; simpl in *.
  - now rewrite append_empty_r.
  - exact J.
Qed.

(** *** The actions of [stream_text] *)

Section Stream.

Variable clock : nat -> Z.

Let step (iw : nat * string) : list action :=
  [Write (make_sse_chunk (token (fst iw) (snd iw)) None (clock (fst iw)));
   Flush; Sleep CHUNK_DELAY].

Lemma stream_loop (l : list (nat * string)) (wf : list action) :
  fold_left
    (fun wfile iw =>
       let '(i, word) := iw in
       let chunk := make_sse_chunk (token i word) None (clock i) in
       (wfile ++ [Write chunk; Flush; Sleep CHUNK_DELAY])%list) l wf
  = (wf ++ flat_map step l)%list.
Proof.
  revert wf; induction l as [|[i w] l IH]; intros wf; simpl.
  - now rewrite app_nil_r.
  - rewrite IH, <- app_assoc. reflexivity.
Qed.

Lemma stream_text_actions (wf : list action) (text : string) :
  stream_text wf text clock
  = (wf ++ flat_map step (enumerate (split " " text))
       ++ [Write (make_sse_chunk EmptyString (Some "stop")
                    (clock (length (split " " text))));
           Write DONE; Flush])%list.
Proof.
  unfold stream_text. rewrite stream_loop, <- app_assoc. reflexivity.
Qed.

Lemma writes_app (a b : list action) :
  writes (a ++ b) = (writes a ++ writes b)%list.
Proof.
  induction a as [|[x| |d] a IH]; simpl; congruence.
Qed.

Lemma writes_steps (l : list (nat * string)) :
  writes (flat_map step l)
  = map (fun iw => make_sse_chunk (token (fst iw) (snd iw)) None
                     (clock (fst iw))) l.
Proof.
  induction l as [|iw l IH]; simpl; congruence.
Qed.

(** What [stream_text] writes: one event per word, the final event, the
    sentinel. *)
Lemma stream_text_writes (wf : list action) (text : string) :
  writes (stream_text wf text clock)
  = (writes wf ++ map sse_data (content_payloads text clock)
       ++ [sse_data (final_payload text clock); DONE])%list.
Proof.
  rewrite stream_text_actions, !writes_app, writes_steps.
  unfold content_payloads, final_payload, make_sse_chunk.
  now rewrite map_map.
Qed.

End Stream.

(** *** The payload of a chunk *)

Lemma payload_id (content : string) (fr : option string) (now : Z) :
  field "id" (make_sse_chunk_payload content fr now)
  = Some (JString "chatcmpl-demo").
Proof. reflexivity. Qed.

Lemma payload_delta (content : string) (fr : option string) (now : Z) :
  delta_of (make_sse_chunk_payload content fr now)
  = Some (JObject (if truthy content then [("content", JString content)]
                   else [])).
Proof.
  destruct fr as [[|c r]|]; destruct content; reflexivity.
Qed.

Lemma payload_content (content : string) (fr : option string) (now : Z) :
  delta_content (make_sse_chunk_payload content fr now)
  = if truthy content then Some (JString content) else None.
Proof.
  unfold delta_content. rewrite payload_delta.
  destruct content; reflexivity.
Qed.

Lemma payload_content_text (content : string) (fr : option string) (now : Z) :
  content_text (make_sse_chunk_payload content fr now) = content.
Proof.
  unfold content_text. rewrite payload_content. destruct content; reflexivity.
Qed.

Lemma payload_finish_reason (content : string) (fr : option string) (now : Z) :
  finish_reason_of (make_sse_chunk_payload content fr now)
  = match fr with
    | Some reason => if truthy reason then Some (JString reason) else None
    | None => None
    end.
Proof.
  destruct fr as [[|c r]|]; destruct content; reflexivity.
Qed.

Lemma dumps_object_head (members : list (string * json)) :
  exists tail, PyJson.dumps (JObject members) = String "{" tail.
Proof. eexists. cbn [PyJson.dumps]. reflexivity. Qed.

(** An event is never the sentinel: its JSON text opens a brace. *)
Lemma make_sse_chunk_not_DONE (content : string) (fr : option string) (now : Z) :
  make_sse_chunk content fr now <> DONE.
Proof.
  unfold make_sse_chunk, sse_data, make_sse_chunk_payload.
  match goal with
  | |- context [PyJson.dumps (JObject ?m)] =>
      destruct (dumps_object_head m) as [tail ->]
  end.
  unfold DONE. simpl. discriminate.
Qed.

Lemma content_events_not_DONE (text : string) (clock : nat -> Z) :
  ~ In DONE (map sse_data (content_payloads text clock)).
Proof.
  unfold content_payloads. rewrite map_map, in_map_iff.
  intros [iw [H _]]. exact (make_sse_chunk_not_DONE _ _ _ H).
Qed.

(** *** Positions in a stream *)

Lemma nth_error_combine_seq {A : Type} (l : list A) (k i : nat) :
  nth_error (combine (seq k (length l)) l) i
  = option_map (pair (k + i)) (nth_error l i).
Proof.
  revert k i; induction l as [|x l IH]; intros k i.
  - destruct i; reflexivity.
  - destruct i as [|i]; simpl.
    + now rewrite Nat.add_0_r.
    + rewrite IH. now rewrite Nat.add_succ_r.
Qed.

Lemma nth_error_enumerate {A : Type} (l : list A) (i : nat) :
  nth_error (enumerate l) i = option_map (pair i) (nth_error l i).
Proof. unfold enumerate. now rewrite nth_error_combine_seq. Qed.

(** The chunk at position [i] carries the fragment of the word at [i]. *)
Lemma nth_content_payload (text : string) (clock : nat -> Z) (i : nat) :
  nth_error (content_payloads text clock) i
  = option_map (fun w => make_sse_chunk_payload (token i w) None (clock i))
      (nth_error (split " " text) i).
Proof.
  unfold content_payloads.
  rewrite nth_error_map, nth_error_enumerate.
  destruct (nth_error (split " " text) i); reflexivity.
Qed.

Lemma split_first (text : string) :
  exists w ws, split " " text = w :: ws
               /\ truthy w = negb (leading_word_empty text).
Proof.
  destruct text as [|c r]; simpl.
  - now exists EmptyString, [].
  - destruct (Ascii.eqb c " ").
    + now exists EmptyString, (split " " r).
    + destruct (split " " r) as [|w ws]; eexists; eexists; split; reflexivity.
Qed.

Lemma last_occurrence {A : Type} (x : A) (l pre post : list A) :
  ~ In x l -> (l ++ [x] = pre ++ x :: post)%list -> pre = l /\ post = [].
Proof.
  revert pre; induction l as [|a l IH]; intros pre Hn E.
  - destruct pre as [|y pre]; simpl in E.
    + inversion E; auto.
    + inversion E as [[Hy E']]. destruct pre; discriminate.
  - destruct pre as [|y pre]; simpl in E.
    + inversion E; subst. exfalso; apply Hn; now left.
    + inversion E as [[Hy E']]; subst.
      destruct (IH pre) as [-> ->]; auto.
      intros H; apply Hn; now right.
Qed.

Lemma catalog_leading_word (n : nat) :
  leading_word_empty (pick_response n) = false.
Proof. destruct n as [|[|n]]; reflexivity. Qed.

(** ** The chunks of a stream *)

(** The chunks of a stream, for every text.  All of them carry the
    identifier [chatcmpl-demo]; every chunk of a word after the first has
    a content that is not empty; the chunk of the first word has one unless
    the text is empty or begins with a space, and then its delta is the empty
    object and it has no finish reason; the final chunk has the empty delta
    and the finish reason [stop].  For the three canned responses every chunk
    but the final one has a content that is not empty. *)
Lemma chunk_invariant (text : string) (clock : nat -> Z) :
  (forall p, In p (content_payloads text clock ++ [final_payload text clock])
             -> field "id" p = Some (JString "chatcmpl-demo"))
  /\ (forall i p, nth_error (content_payloads text clock) i = Some p ->
      i <> 0%nat \/ leading_word_empty text = false -> has_content p)
  /\ (leading_word_empty text = true ->
      exists p0, nth_error (content_payloads text clock) 0 = Some p0
                 /\ delta_of p0 = Some (JObject [])
                 /\ finish_reason_of p0 = None)
  /\ delta_of (final_payload text clock) = Some (JObject [])
  /\ finish_reason_of (final_payload text clock) = Some (JString "stop")
  /\ (forall n p, In p (content_payloads (pick_response n) clock) ->
      has_content p).
Proof.
  assert (G : forall t i p, nth_error (content_payloads t clock) i = Some p ->
              i <> 0%nat \/ leading_word_empty t = false -> has_content p).
  { intros t i p Hp Hi. rewrite nth_content_payload in Hp.
    destruct (nth_error (split " " t) i) as [w|] eqn:Hw; [|discriminate].
    injection Hp as <-. unfold has_content. rewrite payload_content.
    destruct i as [|i].
    - destruct Hi as [Hi|Hi]; [contradiction|].
      destruct (split_first t) as [w0 [ws [Es Et]]].
      rewrite Es in Hw. injection Hw as ->. rewrite Hi in Et.
      unfold token. simpl Nat.eqb. cbv iota. rewrite Et.
      exists w. split; [reflexivity | now apply truthy_true].
    - exists (" " ++ w). split; [reflexivity | discriminate]. }
  repeat split.
  - intros p Hp. apply in_app_iff in Hp. destruct Hp as [Hp|[<-|[]]].
    + unfold content_payloads in Hp. apply in_map_iff in Hp.
      destruct Hp as [iw [<- _]]. apply payload_id.
    + apply payload_id.
  - apply G.
  - intros Hl. destruct (split_first text) as [w0 [ws [Es Et]]].
    rewrite Hl in Et. apply truthy_false in Et. subst w0.
    eexists. rewrite nth_content_payload, Es. split; [reflexivity|].
    split; reflexivity.
  - intros n p Hp. apply In_nth_error in Hp. destruct Hp as [i Hi].
    apply (G _ i p Hi). right. apply catalog_leading_word.
Qed.

(** C9, as the code has it.  For every call of [make_sse_chunk], the delta
    has the key [content] if and only if the content is not the empty string,
    and the choice has the key [finish_reason] if and only if a finish reason
    was given and is not the empty string; an empty content gives the empty
    object as delta, printed as a pair of braces. *)
Theorem chunk_keys (content : string) (fr : option string) (now : Z) :
  exists delta choice,
    first_choice (make_sse_chunk_payload content fr now) = Some (JObject choice)
    /\ PyDict.get "delta" choice = Some (JObject delta)
    /\ (PyDict.mem "content" delta = true <-> content <> EmptyString)
    /\ (PyDict.mem "finish_reason" choice = true
        <-> exists reason, fr = Some reason /\ reason <> EmptyString)
    /\ (content = EmptyString ->
        delta = [] /\ PyJson.dumps (JObject delta) = "{}").
Proof.
  destruct fr as [[|c r]|]; destruct content as [|d s];
    eexists; eexists; (split; [reflexivity|]); (split; [reflexivity|]);
    repeat split; try discriminate; try reflexivity;
    try (intros [reason [H1 H2]]; congruence).
  all: try (intros _; eexists; split; [reflexivity | discriminate]).
  all: intros H; exfalso; now apply H.
Qed.

(** C10.  Every chunk has the identifier [chatcmpl-demo], whatever its
    content, finish reason and time, and so has every chunk of every stream;
    the event of a chunk begins with that identifier on the wire. *)
Theorem chunk_id_is_constant :
  (forall content fr now,
      field "id" (make_sse_chunk_payload content fr now)
      = Some (JString "chatcmpl-demo")
      /\ String.prefix ("data: {" ++ q "id" ++ ": " ++ q "chatcmpl-demo" ++ ", ")
           (make_sse_chunk content fr now) = true)
  /\ (forall text clock p,
        In p (content_payloads text clock ++ [final_payload text clock]) ->
        field "id" p = Some (JString "chatcmpl-demo")).
Proof.
  split.
  - intros content fr now. split; [reflexivity|].
    unfold make_sse_chunk, sse_data, make_sse_chunk_payload.
    cbn [PyJson.dumps].
    change (PyJson.encode_basestring_ascii "id") with (q "id").
    change (PyJson.dumps (JString "chatcmpl-demo")) with (q "chatcmpl-demo").
    reflexivity.
  - intros text clock p Hp. apply in_app_iff in Hp.
    destruct Hp as [Hp|[<-|[]]].
    + unfold content_payloads in Hp. apply in_map_iff in Hp.
      destruct Hp as [iw [<- _]]. apply payload_id.
    + apply payload_id.
Qed.

(** ** Selecting the response *)

Lemma role_is_tool_dict (d : dict) :
  role_is_tool (JObject d) = Ok (has_role_tool (JObject d)).
Proof.
  unfold role_is_tool, has_role_tool, py_get, field.
  destruct (PyDict.get "role" d) as [[| | | |s| |]|]; reflexivity.
Qed.

Lemma sum_tool_counts (messages : list json) :
  Forall (fun m => is_dict m = true) messages ->
  sum_tool messages = Ok (count_tool_messages messages).
Proof.
  unfold count_tool_messages.
  induction 1 as [|m l Hm Hl IH]; [reflexivity|].
  destruct m; try discriminate.
  cbn [sum_tool filter]. rewrite role_is_tool_dict, IH. cbn [bind].
  destruct (has_role_tool (JObject members)); reflexivity.
Qed.

Lemma count_tool_messages_perm (l l' : list json) :
  Permutation l l' -> count_tool_messages l = count_tool_messages l'.
Proof.
  unfold count_tool_messages.
  induction 1 as [|x l l' _ IH|x y l|l l' l'' _ IH1 _ IH2]; cbn [filter].
  - reflexivity.
  - destruct (has_role_tool x); cbn [length]; congruence.
  - destruct (has_role_tool x), (has_role_tool y); reflexivity.
  - congruence.
Qed.

(** Without its guard on an empty [raw], the handler would fail on a
    request that has no body. *)
Lemma loads_empty : PyJson.loads EmptyString = Raise JSONDecodeError.
Proof. reflexivity. Qed.


Lemma serve_completions (cl : option nat) (rf : string) (clock : nat -> Z) :
  serve (completion_request cl rf) clock
  = _handle_completions (completion_request cl rf) clock no_reply.
Proof. reflexivity. Qed.

Lemma completions_reply (req : request) (clock : nat -> Z)
  (body messages : json) (items : list json) (n : nat) :
  request_body (read_body req) = Ok body ->
  py_get body "messages" (JArray []) = Ok messages ->
  py_iter messages = Ok items ->
  sum_tool items = Ok n ->
  _handle_completions req clock no_reply
  = Ok (completion_reply (pick_response n) clock).
Proof.
  intros Hb Hm Hi Hn. unfold _handle_completions.
  rewrite Hb. cbn [bind]. rewrite Hm. cbn [bind]. rewrite Hi. cbn [bind].
  rewrite Hn. reflexivity.
Qed.

(** C1.  For every completion request whose body (the empty object when no
    body is sent) is an object with a list of message objects under
    [messages], or without that key, the server replies with the stream of
    the canned response picked by the number of messages whose role is
    [tool]: the read-file body for 0, the list-directory body for 1, the
    summary for 2 or more.  Nothing else of the messages enters: any
    reordering of them has the same count. *)
Theorem response_selected_by_tool_count (cl : option nat) (rf : string)
  (clock : nat -> Z) (d : dict) (messages : list json) :
  let req := completion_request cl rf in
  request_body (read_body req) = Ok (JObject d) ->
  py_get (JObject d) "messages" (JArray []) = Ok (JArray messages) ->
  Forall (fun m => is_dict m = true) messages ->
  let n := count_tool_messages messages in
  serve req clock = Ok (completion_reply (pick_response n) clock)
  /\ (n = 0%nat -> pick_response n = TOOL_CALL_READ_FILE)
  /\ (n = 1%nat -> pick_response n = TOOL_CALL_LIST_DIR)
  /\ (2 <= n -> pick_response n = FINAL_SUMMARY)
  /\ (forall messages', Permutation messages messages' ->
      count_tool_messages messages' = n).
Proof.
  intros req Hl Hm Hd n. repeat split.
  - unfold req. rewrite serve_completions.
    apply (completions_reply _ _ (JObject d) (JArray messages) messages).
    + exact Hl.
    + exact Hm.
    + reflexivity.
    + now apply sum_tool_counts.
  - intros ->. reflexivity.
  - intros ->. reflexivity.
  - intros H. destruct n as [|[|k]]; [lia | lia | reflexivity].
  - intros l' Hp. symmetry. now apply count_tool_messages_perm.
Qed.

(** A request with a user message and a tool message gets the
    list-directory body. *)
Lemma response_selected_by_tool_count_witness :
  let body :=
    "{" ++ q "messages" ++ ": [{" ++ q "role" ++ ": " ++ q "user" ++ ", "
    ++ q "content" ++ ": " ++ q "hi" ++ "}, {" ++ q "role" ++ ": "
    ++ q "tool" ++ ", " ++ q "content" ++ ": " ++ q "# OpenOrca" ++ "}]}" in
  serve (completion_request (Some (String.length body)) body) (fun _ => 0%Z)
  = Ok (completion_reply TOOL_CALL_LIST_DIR (fun _ => 0%Z)).
Proof.
  cbv zeta.
  refine (proj1 (response_selected_by_tool_count _ _ (fun _ => 0%Z)
                   [("messages",
                     JArray [JObject [("role", JString "user");
                                      ("content", JString "hi")];
                             JObject [("role", JString "tool");
                                      ("content", JString "# OpenOrca")]])]
                   [JObject [("role", JString "user");
                             ("content", JString "hi")];
                    JObject [("role", JString "tool");
                             ("content", JString "# OpenOrca")]] _ _ _)).
  - vm_compute. reflexivity.
  - reflexivity.
  - repeat constructor.
Defined.

(** ** Absent and malformed bodies *)




(** ** Routing *)

Lemma getattr_MockHandler (c : string) :
  getattr MockHandler ("do_" ++ c)
  = if String.eqb c "GET" then Some do_GET
    else if String.eqb c "POST" then Some do_POST
    else None.
Proof. reflexivity. Qed.

Lemma send_error_reply (req : request) (code : Z) (message : option string) :
  (200 <= code)%Z -> code <> 204%Z -> code <> 205%Z -> code <> 304%Z ->
  let shortmsg :=
    match responses code with Some (s, _) => s | None => "???" end in
  let longmsg :=
    match responses code with Some (_, l) => l | None => "???" end in
  let msg := match message with Some m => m | None => shortmsg end in
  let page :=
    error_message_format code (html_escape msg) (html_escape longmsg) in
  let r := send_error req code message no_reply in
  status r = Some (code, msg)
  /\ headers r = [("Connection", "close");
                  ("Content-Type", DEFAULT_ERROR_CONTENT_TYPE);
                  ("Content-Length", of_int (Z.of_nat (String.length page)))]
  /\ wfile r = (if String.eqb (command req) "HEAD" then [] else [Write page])
  /\ page <> EmptyString.
Proof.
  intros H1 H2 H3 H4. cbv zeta. unfold send_error.
  destruct (responses code) as [[s l]|].
  all: replace ((200 <=? code)%Z) with true by (symmetry; now apply Z.leb_le).
  all: replace ((code =? 204)%Z) with false by (symmetry; now apply Z.eqb_neq).
  all: replace ((code =? 205)%Z) with false by (symmetry; now apply Z.eqb_neq).
  all: replace ((code =? 304)%Z) with false by (symmetry; now apply Z.eqb_neq).
  all: cbn [andb orb negb].
  all: destruct (String.eqb (command req) "HEAD"); cbn [negb andb].
  all: repeat split; try reflexivity; try discriminate.
Qed.

(** C5, as stated, fails twice: the reply 404 has a body, the error page of
    the library, and a method other than GET and POST is answered 501. *)
Lemma not_found_page_and_unsupported_method :
  (exists r page,
      serve {| command := "GET"; path := "/v1/nope";
               content_length := None; rfile := EmptyString |} (fun _ => 0%Z)
      = Ok r
      /\ status r = Some (404%Z, "Not Found")
      /\ wfile r = [Write page]
      /\ String.length page = 330%nat)
  /\ (exists r,
         serve {| command := "DELETE"; path := "/v1/models";
                  content_length := None; rfile := EmptyString |}
           (fun _ => 0%Z)
         = Ok r
         /\ option_map fst (status r) = Some 501%Z).
Proof.
  split.
  - eexists. eexists. split; [vm_compute; reflexivity|].
    split; [reflexivity|]. split; reflexivity.
  - eexists. split; [vm_compute; reflexivity|]. reflexivity.
Qed.

(** C5, as the code has it.  A request that is neither GET /v1/models nor
    POST /v1/chat/completions is answered by [send_error]: with 404 and the
    message [Not Found] when the method is GET or POST, with 501 by the
    library when the handler has no method for the command.  The reply
    closes the connection and, unless the command is HEAD, its body is the
    error page of the library, which is not empty. *)
Theorem unrouted_request_reply (req : request) (clock : nat -> Z) :
  ~ (command req = "GET" /\ path req = "/v1/models") ->
  ~ (command req = "POST" /\ path req = "/v1/chat/completions") ->
  exists code message r page,
    serve req clock = Ok r
    /\ r = send_error req code message no_reply
    /\ option_map fst (status r) = Some code
    /\ (command req = "GET" \/ command req = "POST" ->
        code = 404%Z /\ message = None
        /\ status r = Some (404%Z, "Not Found"))
    /\ (command req <> "GET" -> command req <> "POST" ->
        code = 501%Z
        /\ message
           = Some ("Unsupported method (" ++ repr (command req) ++ ")"))
    /\ In ("Connection", "close") (headers r)
    /\ wfile r = (if String.eqb (command req) "HEAD" then [] else [Write page])
    /\ page <> EmptyString.
Proof.
  intros HG HP.
  assert (S404 := send_error_reply req 404 None).
  assert (S501 := fun m => send_error_reply req 501 (Some m)).
  cbv zeta in S404, S501.
  unfold serve, handle_one_request. rewrite getattr_MockHandler.
  assert (R404 : (command req = "GET" \/ command req = "POST") ->
                 exists code message r page,
                   Ok (send_error req 404 None no_reply) = Ok r
                   /\ r = send_error req code message no_reply
                   /\ option_map fst (status r) = Some code
                   /\ (command req = "GET" \/ command req = "POST" ->
                       code = 404%Z /\ message = None
                       /\ status r = Some (404%Z, "Not Found"))
                   /\ (command req <> "GET" -> command req <> "POST" ->
                       code = 501%Z
                       /\ message
                          = Some ("Unsupported method ("
                                  ++ repr (command req) ++ ")"))
                   /\ In ("Connection", "close") (headers r)
                   /\ wfile r = (if String.eqb (command req) "HEAD"
                                 then [] else [Write page])
                   /\ page <> EmptyString).
  { intros Hc. destruct S404 as [Hs [Hh [Hw Hp]]]; try lia.
    eexists 404%Z, None, _, _. split; [reflexivity|].
    split; [reflexivity|]. split; [now rewrite Hs|].
    split; [intros _; repeat split; exact Hs|].
    split; [intros H1 H2; destruct Hc; contradiction|].
    split; [rewrite Hh; now left|].
    split; [exact Hw | exact Hp]. }
  destruct (String.eqb_spec (command req) "GET") as [EG|NG].
  - unfold do_GET.
    destruct (String.eqb_spec (path req) "/v1/models") as [E|N];
      [exfalso; now apply HG|].
    apply R404. now left.
  - destruct (String.eqb_spec (command req) "POST") as [EP|NP].
    + unfold do_POST.
      destruct (String.eqb_spec (path req) "/v1/chat/completions") as [E|N];
        [exfalso; now apply HP|].
      apply R404. now right.
    + destruct (S501 ("Unsupported method (" ++ repr (command req) ++ ")"))
        as [Hs [Hh [Hw Hp]]]; try lia.
      eexists 501%Z, (Some _), _, _. split; [reflexivity|].
      split; [reflexivity|]. split; [now rewrite Hs|].
      split; [intros [H|H]; contradiction|].
      split; [intros _ _; split; reflexivity|].
      split; [rewrite Hh; now left|].
      split; [exact Hw | exact Hp].
Qed.

(** A GET of another path is answered 404 with the error page. *)
Lemma unrouted_request_reply_witness :
  exists code message r page,
    serve {| command := "GET"; path := "/"; content_length := None;
             rfile := EmptyString |} (fun _ => 0%Z) = Ok r
    /\ r = send_error {| command := "GET"; path := "/"; content_length := None;
                         rfile := EmptyString |} code message no_reply
    /\ option_map fst (status r) = Some code
    /\ code = 404%Z
    /\ wfile r = [Write page]
    /\ page <> EmptyString.
Proof.
  destruct (unrouted_request_reply
              {| command := "GET"; path := "/"; content_length := None;
                 rfile := EmptyString |} (fun _ => 0%Z))
    as [code [message [r [page [H1 [H2 [H3 [H4 [_ [_ [H5 H6]]]]]]]]]]].
  - intros [_ H]. discriminate H.
  - intros [H _]. discriminate H.
  - exists code, message, r, page.
    repeat split; try assumption.
    apply H4. now left.
Defined.

(** C8.  Every GET of /v1/models, whatever else the request holds, is
    answered with status 200, the content type [application/json] and one
    write: the document with [object] equal to [list] and, under [data], a
    list of exactly one model entry, whose [id] is [MODEL_ID]. *)
Theorem models_listing (cl : option nat) (rf : string) (clock : nat -> Z) :
  exists entry,
    serve {| command := "GET"; path := "/v1/models";
             content_length := cl; rfile := rf |} clock
    = Ok {| status := Some (200%Z, "OK");
            headers := [("Content-Type", "application/json")];
            wfile := [Write (PyJson.dumps
                               (JObject [("object", JString "list");
                                         ("data", JArray [entry])]))] |}
    /\ field "id" entry = Some (JString MODEL_ID)
    /\ field "object" entry = Some (JString "model")
    /\ field "created" entry = Some (JInt (clock 0%nat))
    /\ field "owned_by" entry = Some (JString "demo")
    /\ MODEL_ID = "demo-model-7b".
Proof.
  eexists. split; [reflexivity|]. repeat split; reflexivity.
Qed.

(** ** The canned responses *)

(** C6, as stated, fails: the summary holds the opening delimiter. *)
Lemma summary_mentions_opening_delimiter :
  contains TOOL_CALL_OPEN FINAL_SUMMARY = true
  /\ contains ("text-based `" ++ TOOL_CALL_OPEN ++ "` tags") FINAL_SUMMARY
     = true.
Proof. split; vm_compute; reflexivity. Qed.

(** C6, as the code has it.  The summary, which is the response for every
    count of two or more, holds no tool call: the closing delimiter occurs
    nowhere in it, so no pair of delimiters wraps anything; the opening
    delimiter occurs once, in the prose.  The two action-request bodies are
    a sentence, a blank line and one JSON object between the delimiters. *)
Theorem summary_has_no_tool_call :
  contains TOOL_CALL_CLOSE FINAL_SUMMARY = false
  /\ count TOOL_CALL_OPEN FINAL_SUMMARY = 1%nat
  /\ (forall n, pick_response (S (S n)) = FINAL_SUMMARY)
  /\ (exists prose call,
        TOOL_CALL_READ_FILE
        = prose ++ TOOL_CALL_OPEN ++ call ++ TOOL_CALL_CLOSE
        /\ PyJson.loads call
           = Ok (JObject [("name", JString "read_file");
                          ("arguments",
                           JObject [("path", JString "README.md")])]))
  /\ (exists prose call,
        TOOL_CALL_LIST_DIR
        = prose ++ TOOL_CALL_OPEN ++ call ++ TOOL_CALL_CLOSE
        /\ PyJson.loads call
           = Ok (JObject [("name", JString "list_directory");
                          ("arguments", JObject [("path", JString ".")])])).
Proof.
  split; [vm_compute; reflexivity|].
  split; [vm_compute; reflexivity|].
  split; [reflexivity|].
  split.
  - exists ("Let me start by reading the README to understand this project."
            ++ nl ++ nl).
    exists ("{" ++ q "name" ++ ":" ++ q "read_file" ++ "," ++ q "arguments"
            ++ ":{" ++ q "path" ++ ":" ++ q "README.md" ++ "}}").
    split; vm_compute; reflexivity.
  - exists ("Good, I can see the README. Let me also check the project structure."
            ++ nl ++ nl).
    exists ("{" ++ q "name" ++ ":" ++ q "list_directory" ++ ","
            ++ q "arguments" ++ ":{" ++ q "path" ++ ":" ++ q "." ++ "}}").
    split; vm_compute; reflexivity.
Qed.

(** ** Chunks without content *)

(** An edge of [stream_text] that no request reaches, the canned responses
    being what they are: for the empty text and for a text that begins with
    a space, the first chunk is not the final one, and its delta is the
    empty object. *)
Lemma first_chunk_without_content :
  let clock := fun _ : nat => 0%Z in
  let p0 := make_sse_chunk_payload EmptyString None 0 in
  writes (stream_text [] EmptyString clock)
  = [sse_data p0; sse_data (final_payload EmptyString clock); DONE]
  /\ writes (stream_text [] " hi" clock)
     = [sse_data p0;
        sse_data (make_sse_chunk_payload " hi" None 0);
        sse_data (final_payload " hi" clock); DONE]
  /\ delta_of p0 = Some (JObject [])
  /\ delta_content p0 = None
  /\ finish_reason_of p0 = None.
Proof. repeat split. Qed.

(** C9, as stated, fails: an empty string given as finish reason is given,
    and the choice has no [finish_reason] key. *)
Lemma empty_finish_reason_is_dropped :
  let fr := Some EmptyString in
  fr <> None
  /\ finish_reason_of (make_sse_chunk_payload "x" fr 0) = None
  /\ make_sse_chunk "x" fr 0 = make_sse_chunk "x" None 0.
Proof. repeat split. discriminate. Qed.

(** ** The three canned streams, decoded

    For each canned response, at a concrete clock: the events that the
    server writes decode, with the model of [json.loads], to the payloads of
    the chunks, and the sentinel closes the stream. *)

Example canned_streams_decode :
  forall n, In n [0; 1; 2]%nat ->
    let text := pick_response n in
    map decode_event (writes (stream_text [] text example_clock))
    = (map (fun p => Some (Ok p))
         (content_payloads text example_clock
          ++ [final_payload text example_clock])
       ++ [None])%list.
Proof.
  intros n [<-|[<-|[<-|[]]]]; vm_compute; reflexivity.
Qed.

(** The scenario of an empty list of messages: the read-file body is
    streamed, and its first two fragments are its first two words, the
    second after a space. *)
Example empty_messages_first_fragments :
  serve (completion_request (Some (String.length EMPTY_MESSAGES_BODY))
           EMPTY_MESSAGES_BODY) example_clock
  = Ok (completion_reply TOOL_CALL_READ_FILE example_clock)
  /\ firstn 2 (map content_text
                 (content_payloads TOOL_CALL_READ_FILE example_clock))
     = ["Let"; " me"].
Proof. split; vm_compute; reflexivity. Qed.

(** The listing of the models decodes to one entry with the identifier of
    the model. *)
Example models_listing_decodes :
  exists body,
    option_map wfile
      (match serve {| command := "GET"; path := "/v1/models";
                      content_length := None; rfile := EmptyString |}
               example_clock with
       | Ok r => Some r
       | Raise _ => None
       end) = Some [Write body]
    /\ PyJson.loads body
       = Ok (JObject [("object", JString "list");
                      ("data",
                       JArray [JObject [("id", JString "demo-model-7b");
                                        ("object", JString "model");
                                        ("created", JInt 1700000000);
                                        ("owned_by", JString "demo")]])]).
Proof.
  exists (PyJson.dumps
            (JObject [("object", JString "list");
                      ("data",
                       JArray [JObject [("id", JString MODEL_ID);
                                        ("object", JString "model");
                                        ("created", JInt 1700000000);
                                        ("owned_by", JString "demo")]])])).
  split; vm_compute; reflexivity.
Qed.

(** ** More of the handlers *)

Lemma sleeps_app (a b : list action) :
  sleeps (a ++ b) = (sleeps a ++ sleeps b)%list.
Proof.
  induction a as [|[x| |d] a IH]; simpl; congruence.
Qed.

Lemma sleeps_steps (clock : nat -> Z) (l : list (nat * string)) :
  sleeps
    (flat_map
       (fun iw =>
          [Write (make_sse_chunk (token (fst iw) (snd iw)) None
                    (clock (fst iw)));
           Flush; Sleep CHUNK_DELAY]) l)
  = repeat CHUNK_DELAY (length l).
Proof.
  induction l as [|iw l IH]; simpl; congruence.
Qed.

Lemma length_enumerate {A : Type} (l : list A) :
  length (enumerate l) = length l.
Proof.
  unfold enumerate. rewrite length_combine, length_seq. apply Nat.min_id.
Qed.

(** X1.  [stream_text] appends to what was written before; for each word,
    in order, it writes the chunk, flushes and pauses for [CHUNK_DELAY], and
    after the last word it writes the final chunk and the sentinel and
    flushes once, with no pause after them.  So the pauses are as many as the
    words, one more than the spaces of the text, each of 0.03 seconds, and
    the writes are two more than the words. *)
Theorem stream_text_pacing (wf : list action) (text : string)
  (clock : nat -> Z) :
  let words := split " " text in
  stream_text wf text clock
  = (wf
     ++ flat_map
          (fun iw =>
             [Write (make_sse_chunk (token (fst iw) (snd iw)) None
                       (clock (fst iw)));
              Flush; Sleep CHUNK_DELAY]) (enumerate words)
     ++ [Write (make_sse_chunk EmptyString (Some "stop")
                  (clock (length words)));
         Write DONE; Flush])%list
  /\ sleeps (stream_text [] text clock)
     = repeat CHUNK_DELAY (S (count_char " " text))
  /\ CHUNK_DELAY = (3 # 100)%Q
  /\ length (writes (stream_text [] text clock))
     = (count_char " " text + 3)%nat.
Proof.
  intros words.
  assert (E := stream_text_actions clock).
  split; [apply E|]. split; [|split; [reflexivity|]].
  - rewrite E. cbn [app]. rewrite sleeps_app, sleeps_steps.
    rewrite length_enumerate, split_length. cbn [sleeps].
    now rewrite app_nil_r.
  - rewrite stream_text_writes. cbn [writes app].
    rewrite length_app, length_map. unfold content_payloads.
    rewrite length_map, length_enumerate, split_length. cbn [length]. lia.
Qed.

Lemma sum_tool_error (items : list json) (e : exn) :
  sum_tool items = Raise e -> e = AttributeError.
Proof.
  induction items as [|m l IH]; [discriminate|].
  cbn [sum_tool]. destruct m; try (intros [= <-]; reflexivity).
  rewrite role_is_tool_dict. cbn [bind].
  destruct (sum_tool l); [discriminate|]. cbn [bind].
  intros [= <-]. now apply IH.
Qed.

Lemma sum_tool_not_dict (items : list json) :
  forallb is_dict items = false -> sum_tool items = Raise AttributeError.
Proof.
  induction items as [|m l IH]; [discriminate|].
  cbn [forallb sum_tool]. destruct m; try reflexivity.
  cbn [is_dict andb]. intros H. rewrite role_is_tool_dict, (IH H).
  reflexivity.
Qed.

Lemma forallb_is_dict (items : list json) :
  forallb is_dict items = true -> Forall (fun m => is_dict m = true) items.
Proof.
  rewrite forallb_forall, Forall_forall. auto.
Qed.

Lemma handle_completions_raises (req : request) (clock : nat -> Z)
  (body messages : json) (items : list json) (e : exn) :
  request_body (read_body req) = Ok body ->
  py_get body "messages" (JArray []) = Ok messages ->
  py_iter messages = Ok items ->
  sum_tool items = Raise e ->
  _handle_completions req clock no_reply = Raise e.
Proof.
  intros Hb Hm Hi Hn. unfold _handle_completions.
  rewrite Hb. cbn [bind]. rewrite Hm. cbn [bind]. rewrite Hi. cbn [bind].
  rewrite Hn. reflexivity.
Qed.

(** X3.  What a decoded body of the wrong shape does to a completion
    request.  A body that is not an object raises [AttributeError].  In an
    object, [messages] equal to null, a boolean or a number raises
    [TypeError]; a list with an item that is not an object raises
    [AttributeError], wherever the item stands; a string or an object in the
    place of the list raises [AttributeError] unless it is empty, and then
    the read-file body is streamed as for no messages. *)
Theorem ill_shaped_body (cl : option nat) (rf : string) (clock : nat -> Z)
  (body : json) :
  let req := completion_request cl rf in
  request_body (read_body req) = Ok body ->
  (is_dict body = false -> serve req clock = Raise AttributeError)
  /\ (forall d m,
        body = JObject d -> PyDict.get "messages" d = Some m ->
        match m with
        | JNull | JBool _ | JInt _ | JFloat _ =>
            serve req clock = Raise TypeError
        | JArray items =>
            forallb is_dict items = false ->
            serve req clock = Raise AttributeError
        | JString s =>
            serve req clock
            = if truthy s then Raise AttributeError
              else Ok (completion_reply TOOL_CALL_READ_FILE clock)
        | JObject keys =>
            serve req clock
            = match keys with
              | [] => Ok (completion_reply TOOL_CALL_READ_FILE clock)
              | _ :: _ => Raise AttributeError
              end
        end).
Proof.
  intros req Hb. unfold req. rewrite serve_completions. fold req. split.
  - intros Hd. unfold _handle_completions. rewrite Hb. cbn [bind].
    destruct body; try reflexivity. discriminate.
  - intros d m -> Hm.
    assert (Hg : py_get (JObject d) "messages" (JArray []) = Ok m)
      by (unfold py_get; now rewrite Hm).
    destruct m as [|b|z|lexeme|s|items|keys].
    1-4: unfold _handle_completions; rewrite Hb; cbn [bind]; rewrite Hg;
      reflexivity.
    + destruct s as [|c s].
      * apply (completions_reply _ _ _ _ [] 0%nat Hb Hg); reflexivity.
      * cbn [truthy].
        unfold _handle_completions. rewrite Hb. cbn [bind]. rewrite Hg.
        cbn [bind py_iter].
        destruct (codepoints (String c s)) as [|n ns] eqn:E.
        { exfalso. cbn [codepoints] in E.
          repeat match type of E with
                 | context [if ?b then _ else _] => destruct b
                 | context [match ?r with EmptyString => _ | String _ _ => _ end] =>
                     destruct r
                 end; discriminate. }
        reflexivity.
    + intros Hf.
      apply (handle_completions_raises _ _ _ _ items _ Hb Hg eq_refl).
      now apply sum_tool_not_dict.
    + destruct keys as [|[k v] keys].
      * apply (completions_reply _ _ _ _ [] 0%nat Hb Hg); reflexivity.
      * unfold _handle_completions. rewrite Hb. cbn [bind]. rewrite Hg.
        reflexivity.
Qed.

(** A body with null for [messages], and one with a number among the
    messages. *)
Lemma ill_shaped_body_witness :
  serve (completion_request (Some 18%nat) ("{" ++ q "messages" ++ ": null}"))
    (fun _ => 0%Z) = Raise TypeError
  /\ serve (completion_request (Some 21%nat)
              ("{" ++ q "messages" ++ ": [{}, 1]}")) (fun _ => 0%Z)
     = Raise AttributeError.
Proof.
  split.
  - refine (proj2 (ill_shaped_body (Some 18%nat)
                     ("{" ++ q "messages" ++ ": null}") (fun _ => 0%Z)
                     (JObject [("messages", JNull)]) _)
              [("messages", JNull)] JNull eq_refl eq_refl).
    vm_compute. reflexivity.
  - refine (proj2 (ill_shaped_body (Some 21%nat)
                     ("{" ++ q "messages" ++ ": [{}, 1]}") (fun _ => 0%Z)
                     (JObject [("messages", JArray [JObject []; JInt 1])]) _)
              [("messages", JArray [JObject []; JInt 1])]
              (JArray [JObject []; JInt 1]) eq_refl eq_refl eq_refl).
    vm_compute. reflexivity.
Defined.

Lemma sum_tool_app (l l' : list json) :
  sum_tool (l ++ l')
  = (n <- sum_tool l ;; m <- sum_tool l' ;; Ok (n + m)%nat).
Proof.
  induction l as [|x l IH].
  - cbn [app sum_tool bind]. destruct (sum_tool l'); reflexivity.
  - cbn [app sum_tool]. rewrite IH.
    destruct (role_is_tool x) as [b|e]; [|reflexivity]. cbn [bind].
    destruct (sum_tool l) as [n|e]; [|reflexivity]. cbn [bind].
    destruct (sum_tool l') as [m|e]; [|reflexivity]. cbn [bind].
    now rewrite Nat.add_assoc.
Qed.

Lemma canned_responses_differ :
  TOOL_CALL_READ_FILE <> TOOL_CALL_LIST_DIR
  /\ TOOL_CALL_READ_FILE <> FINAL_SUMMARY
  /\ TOOL_CALL_LIST_DIR <> FINAL_SUMMARY.
Proof. repeat split; discriminate. Qed.

(** X4.  The count of tool messages is additive over a history in two
    parts, and the response depends on the count through the smaller of the
    count and 2 only, the three responses being different texts.  So a
    history extended by messages of other roles gets the same response, and
    no extension of a history moves the response back from the summary to an
    action request, or from the list-directory body to the read-file body. *)
Theorem tool_count_progression (l l' : list json) (n m : nat) :
  sum_tool l = Ok n -> sum_tool l' = Ok m ->
  sum_tool (l ++ l') = Ok (n + m)%nat
  /\ (forall a b, pick_response a = pick_response b
                  <-> Nat.min a 2 = Nat.min b 2)
  /\ (m = 0%nat -> pick_response (n + m) = pick_response n)
  /\ (pick_response n = FINAL_SUMMARY ->
      pick_response (n + m) = FINAL_SUMMARY)
  /\ (pick_response (n + m) = TOOL_CALL_READ_FILE ->
      pick_response n = TOOL_CALL_READ_FILE).
Proof.
  intros Hn Hm.
  destruct canned_responses_differ as [D1 [D2 D3]].
  assert (P : forall a b, pick_response a = pick_response b
                          <-> Nat.min a 2 = Nat.min b 2).
  { intros [|[|a]] [|[|b]];
      change (pick_response 0) with TOOL_CALL_READ_FILE;
      change (pick_response 1) with TOOL_CALL_LIST_DIR;
      try change (pick_response (S (S a))) with FINAL_SUMMARY;
      try change (pick_response (S (S b))) with FINAL_SUMMARY;
      split; intros H; try reflexivity; try lia;
      exfalso; auto using eq_sym. }
  split; [rewrite sum_tool_app, Hn, Hm; reflexivity|].
  split; [exact P|].
  split; [intros ->; now rewrite Nat.add_0_r|].
  split.
  - change FINAL_SUMMARY with (pick_response 2). rewrite !P. lia.
  - change TOOL_CALL_READ_FILE with (pick_response 0). rewrite !P. lia.
Qed.

(** One tool message, then a user message and another tool message. *)
Lemma tool_count_progression_witness :
  sum_tool ([JObject [("role", JString "tool")]]
            ++ [JObject [("role", JString "user")];
                JObject [("role", JString "tool")]])
  = Ok 2%nat.
Proof.
  exact (proj1 (tool_count_progression
                  [JObject [("role", JString "tool")]]
                  [JObject [("role", JString "user")];
                   JObject [("role", JString "tool")]] 1 1
                  eq_refl eq_refl)).
Defined.

(** ** [main] *)

Lemma port_flag_absent (pre : list string) :
  ~ In "--port" pre ->
  existsb (fun a => String.eqb a "--port") pre = false
  /\ list_index "--port" pre = None.
Proof.
  induction pre as [|a pre IH]; intros H; [split; reflexivity|].
  cbn [existsb list_index].
  destruct (String.eqb_spec a "--port") as [->|Ha].
  - exfalso. apply H. now left.
  - destruct IH as [IH1 IH2]; [intros K; apply H; now right|].
    now rewrite IH1, IH2.
Qed.

Lemma port_flag_first (pre rest : list string) :
  ~ In "--port" pre ->
  existsb (fun a => String.eqb a "--port") (pre ++ "--port" :: rest) = true
  /\ list_index "--port" (pre ++ "--port" :: rest) = Some (length pre).
Proof.
  induction pre as [|a pre IH]; intros H; [split; reflexivity|].
  cbn [app existsb list_index length].
  destruct (String.eqb_spec a "--port") as [->|Ha].
  - exfalso. apply H. now left.
  - destruct IH as [IH1 IH2]; [intros K; apply H; now right|].
    now rewrite IH1, IH2.
Qed.

(** X8.  [main] serves on port 1234 when no argument is [--port].  Otherwise
    the argument after the first [--port] decides, whatever follows it, a
    later [--port] included: [int] of it is the port, or its [ValueError]
    ends [main]; and when the first [--port] is the last argument, [main]
    ends with [IndexError].  In both failures no server is created. *)
Theorem main_port_argument (int : string -> option Z)
  (pre post : list string) (a : string) :
  ~ In "--port" pre ->
  main_port int pre = Bind 1234
  /\ main_port int (pre ++ ["--port"]) = IndexError
  /\ main_port int (pre ++ "--port" :: a :: post)
     = match int a with
       | Some port => Bind port
       | None => ValueError
       end.
Proof.
  intros H. unfold main_port. repeat split.
  - destruct (port_flag_absent pre H) as [-> _]. reflexivity.
  - destruct (port_flag_first pre [] H) as [-> ->].
    rewrite (proj2 (nth_error_None _ _)); [reflexivity|].
    rewrite length_app. cbn. lia.
  - destruct (port_flag_first pre (a :: post) H) as [-> ->].
    rewrite nth_error_app2 by lia.
    replace (length pre + 1 - length pre)%nat with 1%nat by lia.
    reflexivity.
Qed.

(** The script called with [--port 8080 --port 9090], for an [int] that
    reads these two numbers. *)
Lemma main_port_argument_witness :
  let int := fun a : string =>
               if String.eqb a "8080" then Some 8080%Z
               else if String.eqb a "9090" then Some 9090%Z
               else None in
  main_port int ["demo/mock-server.py"; "--port"; "8080"; "--port"; "9090"]
  = Bind 8080.
Proof.
  cbv zeta.
  refine (proj2 (proj2 (main_port_argument _ ["demo/mock-server.py"]
                          ["--port"; "9090"] "8080" _))).
  intros [H|[]]. discriminate H.
Defined.

(** ** The diagnostic line *)

(** X9.  The line that [_handle_completions] prints names the response it
    streams: it says [tool_call] exactly when the picked response holds a
    complete tool call, closing delimiter included, and [summary] exactly
    when the response is the summary; the length it gives is that of the
    response in characters. *)
Theorem completion_log_names_response (n : nat) :
  exists label,
    completion_log n (pick_response n)
    = "[mock-server] tool_messages=" ++ of_int (Z.of_nat n)
      ++ ", responding with " ++ label ++ " ("
      ++ of_int (Z.of_nat (py_len (pick_response n))) ++ " chars)"
    /\ (label = "tool_call" \/ label = "summary")
    /\ (label = "tool_call"
        <-> contains TOOL_CALL_CLOSE (pick_response n) = true)
    /\ (label = "summary" <-> pick_response n = FINAL_SUMMARY)
    /\ (py_len (pick_response n) = 140 \/ py_len (pick_response n) = 143
        \/ py_len (pick_response n) = 1179)%nat.
Proof.
  destruct canned_responses_differ as [D1 [D2 D3]].
  destruct n as [|[|n]]; eexists; (split; [reflexivity|]).
  - split; [now left|]. split; [split; [intros _; vm_compute|]; reflexivity|].
    split; [split; [discriminate|intros H; now apply D2 in H]|].
    left. vm_compute. reflexivity.
  - split; [now left|]. split; [split; [intros _; vm_compute|]; reflexivity|].
    split; [split; [discriminate|intros H; now apply D3 in H]|].
    right; left. vm_compute. reflexivity.
  - split; [now right|].
    split; [split; [discriminate|]|].
    + change (pick_response (S (S n))) with FINAL_SUMMARY.
      intros H. vm_compute in H. discriminate H.
    + split; [split; reflexivity|].
      right; right. vm_compute. reflexivity.
Qed.

(** ** What [json.loads] makes of what [json.dumps] printed *)

Module JsonTextFacts.

Import Stdlib.Init.Decimal Stdlib.Numbers.DecimalPos Stdlib.Numbers.DecimalFacts.
Import PyJson JsonText.

(** *** Integers *)
Lemma all_digits_uint (d : uint) :
  all_chars is_digit (NilEmpty.string_of_uint d) = true.
Proof. induction d; cbn; auto. Qed.

Lemma digits_value_uint (d : uint) (p : positive) :
  digits_value (Zpos p) (NilEmpty.string_of_uint d) = Zpos (Pos.of_uint_acc d p).
Proof.
  revert p; induction d; intros p;
    cbn [NilEmpty.string_of_uint digits_value Pos.of_uint_acc];
    try reflexivity;
    match goal with
    | |- digits_value ?a _ = Z.pos (Pos.of_uint_acc _ ?q) =>
        replace a with (Z.pos q) by (vm_compute (Z.of_N _); lia)
    end; apply IHd.
Qed.

Lemma digits_value_uint0 (d : uint) :
  digits_value 0 (NilEmpty.string_of_uint d) = Z.of_N (Pos.of_uint d).
Proof.
  induction d; cbn [NilEmpty.string_of_uint digits_value Pos.of_uint];
    try reflexivity; try exact IHd;
    match goal with
    | |- digits_value ?a _ = Z.of_N (N.pos (Pos.of_uint_acc _ ?q)) =>
        change a with (Z.pos q)
    end; apply digits_value_uint.
Qed.

Lemma digits_value_pos (p : positive) :
  digits_value 0 (NilEmpty.string_of_uint (Pos.to_uint p)) = Zpos p.
Proof. now rewrite digits_value_uint0, Unsigned.of_to. Qed.

Lemma nzhead_head (d : uint) :
  match nzhead d with D0 _ => False | _ => True end.
Proof. induction d; cbn; auto. Qed.

Lemma to_uint_head (p : positive) :
  exists c r, NilEmpty.string_of_uint (Pos.to_uint p) = String c r
              /\ nonzero_digit c = true.
Proof.
  pose proof (Unsigned.to_of (Pos.to_uint p)) as E.
  rewrite Unsigned.of_to in E. cbn [N.to_uint] in E.
  pose proof (Unsigned.to_uint_nonzero p) as Z0.
  pose proof (nzhead_head (Pos.to_uint p)) as H.
  unfold unorm in E.
  destruct (nzhead (Pos.to_uint p)) eqn:N; try contradiction;
    rewrite E; try (now elim Z0); cbn; eexists; eexists; split; reflexivity.
Qed.

Lemma span_digits_app (ds rest : string) :
  all_chars is_digit ds = true -> safe_after rest = true ->
  span_digits (ds ++ rest) = (ds, rest).
Proof.
  intros Hd Hs. induction ds as [|c ds IH]; cbn.
  - destruct rest as [|c r]; [reflexivity|]. cbn in Hs.
    destruct (is_digit c) eqn:D; [discriminate|].
    cbn [span_digits]. now rewrite D.
  - cbn in Hd. apply andb_prop in Hd. destruct Hd as [Hc Hd].
    rewrite Hc, (IH Hd). reflexivity.
Qed.

Lemma is_digit_not (c : ascii) :
  is_digit c = true ->
  Ascii.eqb c "-" = false /\ Ascii.eqb c dq = false
  /\ Ascii.eqb c "{" = false /\ Ascii.eqb c "[" = false
  /\ c <> "n"%char /\ c <> "t"%char /\ c <> "f"%char /\ is_ws c = false
  /\ Ascii.eqb c "]" = false /\ Ascii.eqb c "}" = false.
Proof.
  intros H.
  assert (N : forall x, is_digit x = false -> c <> x)
    by (intros x Hx ->; congruence).
  repeat split;
    try (apply Ascii.eqb_neq; apply N; reflexivity);
    try (apply N; reflexivity).
  unfold is_digit, is_ws in *.
  destruct (N_of_ascii c =? 32)%N eqn:E1; [apply N.eqb_eq in E1; rewrite E1 in H; discriminate|].
  destruct (N_of_ascii c =? 9)%N eqn:E2; [apply N.eqb_eq in E2; rewrite E2 in H; discriminate|].
  destruct (N_of_ascii c =? 10)%N eqn:E3; [apply N.eqb_eq in E3; rewrite E3 in H; discriminate|].
  destruct (N_of_ascii c =? 13)%N eqn:E4; [apply N.eqb_eq in E4; rewrite E4 in H; discriminate|].
  reflexivity.
Qed.

Lemma safe_after_cons (c : ascii) (r : string) :
  safe_after (String c r) = true ->
  is_digit c = false /\ Ascii.eqb c "." = false
  /\ Ascii.eqb c "e" = false /\ Ascii.eqb c "E" = false.
Proof.
  cbn. intros Hs. apply negb_true_iff in Hs.
  apply orb_false_elim in Hs. destruct Hs as [Hs HE].
  apply orb_false_elim in Hs. destruct Hs as [Hs He].
  apply orb_false_elim in Hs. destruct Hs as [Hd Hp]. auto.
Qed.

(** A run of digits that does not start with a zero, and a single zero, are
    read as the integer they denote, with or without a minus sign. *)
Lemma match_number_digits (minus : bool) (c : ascii) (r rest : string) :
  all_chars is_digit (String c r) = true ->
  (Ascii.eqb c "0" = true -> r = EmptyString) ->
  safe_after rest = true ->
  match_number ((if minus then "-" else EmptyString) ++ String c r ++ rest)
  = Some (JInt (if minus then (- digits_value 0 (String c r))%Z
                else digits_value 0 (String c r)), rest).
Proof.
  intros Hd Hz Hs.
  assert (Hc : is_digit c = true) by (cbn in Hd; now apply andb_prop in Hd).
  destruct (is_digit_not c Hc) as [Hm _].
  unfold match_number.
  destruct minus; cbn [append]; cbn [Ascii.eqb Bool.eqb]; rewrite ?Hm.
  all: destruct (Ascii.eqb c "0") eqn:Z0.
  all: try (rewrite (Hz eq_refl) in *; cbn [append];
            apply Ascii.eqb_eq in Z0; subst c).
  all: try (rewrite Hc;
            change (String c (r ++ rest)) with (String c r ++ rest);
            rewrite (span_digits_app _ _ Hd Hs)).
  all: destruct rest as [|c' r']; [reflexivity|].
  all: destruct (safe_after_cons _ _ Hs) as [_ [Hp [He HE]]].
  all: rewrite Hp; cbn iota; rewrite He, HE; reflexivity.
Qed.

Lemma match_number_of_int (z : Z) (rest : string) :
  safe_after rest = true ->
  match_number (of_int z ++ rest) = Some (JInt z, rest).
Proof.
  intros Hs. unfold of_int.
  destruct z as [|p|p]; cbn [Z.to_int NilZero.string_of_int].
  - apply (match_number_digits false "0" EmptyString rest); auto.
  - unfold NilZero.string_of_uint.
    pose proof (all_digits_uint (Pos.to_uint p)) as Hd.
    pose proof (digits_value_pos p) as Hv.
    destruct (to_uint_head p) as [c [r [E Hc]]].
    replace (match Pos.to_uint p with
             | Nil => "0"
             | _ => NilEmpty.string_of_uint (Pos.to_uint p)
             end) with (String c r)
      by (rewrite <- E; pose proof (Unsigned.to_uint_nonnil p);
          destruct (Pos.to_uint p); auto; contradiction).
    rewrite E in Hd, Hv. rewrite <- Hv.
    unfold nonzero_digit in Hc. apply andb_prop in Hc. destruct Hc as [_ Hc].
    apply negb_true_iff in Hc.
    apply (match_number_digits false c r rest Hd); [congruence | exact Hs].
  - unfold NilZero.string_of_uint.
    pose proof (all_digits_uint (Pos.to_uint p)) as Hd.
    pose proof (digits_value_pos p) as Hv.
    destruct (to_uint_head p) as [c [r [E Hc]]].
    replace (match Pos.to_uint p with
             | Nil => "0"
             | _ => NilEmpty.string_of_uint (Pos.to_uint p)
             end) with (String c r)
      by (rewrite <- E; pose proof (Unsigned.to_uint_nonnil p);
          destruct (Pos.to_uint p); auto; contradiction).
    rewrite E in Hd, Hv.
    change (Z.neg p) with (- Z.pos p)%Z. rewrite <- Hv.
    unfold nonzero_digit in Hc. apply andb_prop in Hc. destruct Hc as [_ Hc].
    apply negb_true_iff in Hc.
    apply (match_number_digits true c r rest Hd); [congruence | exact Hs].
Qed.

(** *** Strings *)

#[local] Ltac Zify.zify_post_hook ::= Z.to_euclidean_division_equations.

Lemma land_mod (x : N) :
  (N.land x 15 = x mod 16 /\ N.land x 31 = x mod 32 /\ N.land x 63 = x mod 64
   /\ N.land x 7 = x mod 8 /\ N.land x 1023 = x mod 1024)%N.
Proof.
  repeat split.
  - apply (N.land_ones x 4).
  - apply (N.land_ones x 5).
  - apply (N.land_ones x 6).
  - apply (N.land_ones x 3).
  - apply (N.land_ones x 10).
Qed.

Lemma shift_arith (x : N) :
  (N.shiftl x 6 = x * 64 /\ N.shiftl x 12 = x * 4096
   /\ N.shiftl x 18 = x * 262144 /\ N.shiftl x 10 = x * 1024
   /\ N.shiftr x 4 = x / 16 /\ N.shiftr x 8 = x / 256
   /\ N.shiftr x 12 = x / 4096 /\ N.shiftr x 6 = x / 64
   /\ N.shiftr x 18 = x / 262144 /\ N.shiftr x 10 = x / 1024)%N.
Proof.
  repeat split;
    first [ rewrite N.shiftl_mul_pow2 | rewrite N.shiftr_div_pow2 ];
    reflexivity.
Qed.

Ltac bits :=
  repeat match goal with
    | |- context [N.land ?x 15] => rewrite (proj1 (land_mod x))
    | |- context [N.land ?x 31] => rewrite (proj1 (proj2 (land_mod x)))
    | |- context [N.land ?x 63] =>
        rewrite (proj1 (proj2 (proj2 (land_mod x))))
    | |- context [N.land ?x 7] =>
        rewrite (proj1 (proj2 (proj2 (proj2 (land_mod x)))))
    | |- context [N.land ?x 1023] =>
        rewrite (proj2 (proj2 (proj2 (proj2 (land_mod x)))))
    | |- context [N.shiftl ?x 6] => rewrite (proj1 (shift_arith x))
    | |- context [N.shiftl ?x 12] => rewrite (proj1 (proj2 (shift_arith x)))
    | |- context [N.shiftl ?x 18] =>
        rewrite (proj1 (proj2 (proj2 (shift_arith x))))
    | |- context [N.shiftl ?x 10] =>
        rewrite (proj1 (proj2 (proj2 (proj2 (shift_arith x)))))
    | |- context [N.shiftr ?x 4] =>
        rewrite (proj1 (proj2 (proj2 (proj2 (proj2 (shift_arith x))))))
    | |- context [N.shiftr ?x 8] =>
        rewrite (proj1 (proj2 (proj2 (proj2 (proj2 (proj2 (shift_arith x)))))))
    | |- context [N.shiftr ?x 12] =>
        rewrite (proj1 (proj2 (proj2 (proj2 (proj2 (proj2 (proj2
                   (shift_arith x))))))))
    | |- context [N.shiftr ?x 6] =>
        rewrite (proj1 (proj2 (proj2 (proj2 (proj2 (proj2 (proj2 (proj2
                   (shift_arith x)))))))))
    | |- context [N.shiftr ?x 18] =>
        rewrite (proj1 (proj2 (proj2 (proj2 (proj2 (proj2 (proj2 (proj2
                   (proj2 (shift_arith x))))))))))
    | |- context [N.shiftr ?x 10] =>
        rewrite (proj2 (proj2 (proj2 (proj2 (proj2 (proj2 (proj2 (proj2
                   (proj2 (shift_arith x))))))))))
    end.

Lemma lor_pow2 (a b : N) :
  (b < 1024 -> N.lor (a * 1024) b = a * 1024 + b)%N.
Proof.
  intros H. change 1024%N with (2 ^ 10)%N in *.
  assert (L : N.land (a * 2 ^ 10) b = 0%N).
  { apply N.bits_inj; intros n; rewrite N.land_spec, N.bits_0.
    destruct (N.lt_ge_cases n 10) as [L|L].
    - rewrite N.mul_pow2_bits_low by assumption; reflexivity.
    - rewrite (N.testbit_eqb b), N.div_small;
        [rewrite Bool.andb_false_r; reflexivity|].
      apply N.lt_le_trans with (2 ^ 10)%N;
        [assumption | apply N.pow_le_mono_r; lia]. }
  rewrite <- N.lxor_lor, N.add_nocarry_lxor; auto.
Qed.

Lemma hex_value_digit (d : N) :
  (d < 16)%N -> hex_value (hex_digit d) = Some d.
Proof.
  intros H.
  assert (In d (map N.of_nat (seq 0 16))).
  { apply in_map_iff. exists (N.to_nat d). split; [lia|].
    apply in_seq. lia. }
  cbn in H0. repeat (destruct H0 as [<-|H0]; [reflexivity|]). contradiction.
Qed.

Lemma decode_hex4 (n : N) (tail : string) :
  (n < 65536)%N -> decode_uXXXX (hex4 n ++ tail) = Ok (n, tail).
Proof.
  intros H. unfold hex4, decode_uXXXX. cbn [append].
  rewrite !hex_value_digit; bits; try lia.
  do 2 f_equal. lia.
Qed.

Lemma ascii_of_N_eqb (n m : N) :
  (n < 256)%N -> (m < 256)%N ->
  Ascii.eqb (ascii_of_N n) (ascii_of_N m) = (n =? m)%N.
Proof.
  intros Hn Hm. destruct (N.eqb_spec n m) as [->|D].
  - apply Ascii.eqb_refl.
  - apply Ascii.eqb_neq. intros E. apply D.
    rewrite <- (N_ascii_embedding n Hn), <- (N_ascii_embedding m Hm).
    now rewrite E.
Qed.

Lemma scan_escape (cp : N) (f : nat) (tail : string) :
  scalar cp = true ->
  scanstring (S f) (escape_codepoint cp ++ tail)
  = bind (scanstring f tail) (keep cp).
Proof.
  unfold scalar, is_surrogate, is_high_surrogate, is_low_surrogate.
  intros Hs. apply andb_prop in Hs. destruct Hs as [Hr Hs].
  apply N.ltb_lt in Hr. apply negb_true_iff in Hs.
  apply orb_false_elim in Hs. destruct Hs as [Hh Hl].
  unfold escape_codepoint.
  destruct (N.eqb_spec cp 34) as [->|N34]; [reflexivity|].
  destruct (N.eqb_spec cp 92) as [->|N92]; [reflexivity|].
  destruct (N.eqb_spec cp 10) as [->|N10]; [reflexivity|].
  destruct (N.eqb_spec cp 13) as [->|N13]; [reflexivity|].
  destruct (N.eqb_spec cp 9) as [->|N9]; [reflexivity|].
  destruct (N.eqb_spec cp 8) as [->|N8]; [reflexivity|].
  destruct (N.eqb_spec cp 12) as [->|N12]; [reflexivity|].
  destruct ((32 <=? cp) && (cp <? 127))%N eqn:P.
  { apply andb_prop in P. destruct P as [P1 P2].
    apply N.leb_le in P1. apply N.ltb_lt in P2.
    cbn [append scanstring].
    change dq with (ascii_of_N 34). change backslash with (ascii_of_N 92).
    rewrite !ascii_of_N_eqb by lia.
    rewrite (proj2 (N.eqb_neq cp 34) N34), (proj2 (N.eqb_neq cp 92) N92).
    rewrite N_ascii_embedding by lia.
    rewrite (proj2 (N.ltb_ge cp 32) P1).
    unfold keep, encode_codepoint.
    rewrite (proj2 (N.ltb_lt cp 128)) by lia.
    reflexivity. }
  destruct (N.ltb_spec cp 65536) as [B|B].
  - unfold uescape. cbn [append scanstring].
    change (Ascii.eqb backslash dq) with false.
    change (Ascii.eqb backslash backslash) with true.
    change (Ascii.eqb "u" "u") with true. cbv iota.
    rewrite decode_hex4 by assumption. cbn [bind].
    unfold is_high_surrogate. rewrite Hh. cbn [bind]. reflexivity.
  - set (m := (cp - 65536)%N).
    set (hi := N.lor 55296 (N.land (N.shiftr m 10) 1023)).
    set (lo := N.lor 56320 (N.land m 1023)).
    assert (Ehi : hi = (55296 + m / 1024)%N).
    { unfold hi. change 55296%N with (54 * 1024)%N.
      rewrite lor_pow2; bits; lia. }
    assert (Elo : lo = (56320 + m mod 1024)%N).
    { unfold lo. change 56320%N with (55 * 1024)%N.
      rewrite lor_pow2; bits; lia. }
    unfold uescape. rewrite append_assoc. cbn [append scanstring].
    change (Ascii.eqb backslash dq) with false.
    change (Ascii.eqb backslash backslash) with true.
    change (Ascii.eqb "u" "u") with true. cbv iota.
    rewrite decode_hex4 by lia. cbn [bind].
    replace (is_high_surrogate hi) with true
      by (symmetry; unfold is_high_surrogate;
          apply andb_true_intro; split;
          [apply N.leb_le | apply N.ltb_lt]; lia).
    change (Ascii.eqb backslash backslash && Ascii.eqb "u" "u") with true.
    cbv iota.
    rewrite decode_hex4 by lia. cbn [bind].
    replace (is_low_surrogate lo) with true
      by (symmetry; unfold is_low_surrogate;
          apply andb_true_intro; split;
          [apply N.leb_le | apply N.ltb_lt]; lia).
    cbn [bind].
    replace (join_surrogates hi lo) with cp; [reflexivity|].
    unfold join_surrogates. rewrite Ehi, Elo.
    replace (55296 + m / 1024 - 55296)%N with (m / 1024)%N by lia.
    replace (56320 + m mod 1024 - 56320)%N with (m mod 1024)%N by lia.
    bits. rewrite lor_pow2 by lia. lia.
Qed.

Lemma escaped_cons (cp : N) (cps : list N) :
  escaped (cp :: cps) = escape_codepoint cp ++ escaped cps.
Proof. unfold escaped. cbn [map]. apply concat_cons. Qed.

Lemma scanstring_escaped (cps : list N) (f : nat) (tail : string) :
  forallb scalar cps = true -> length cps < f ->
  scanstring f (escaped cps ++ String dq tail)
  = Ok (String.concat EmptyString (map encode_codepoint cps), tail).
Proof.
  revert f; induction cps as [|cp cps IH]; intros f Hs Hf.
  - destruct f; [cbn in Hf; lia|]. reflexivity.
  - destruct f; [cbn in Hf; lia|]. cbn [forallb] in Hs.
    apply andb_prop in Hs. destruct Hs as [Hc Hs].
    rewrite escaped_cons, append_assoc, (scan_escape _ _ _ Hc).
    rewrite (IH f Hs) by (cbn in Hf; lia). cbn [bind keep map].
    now rewrite concat_cons.
Qed.

(** Decoding UTF-8 and encoding it again. *)
Lemma utf8_step (s : string) :
  utf8_valid s = true -> s <> EmptyString ->
  exists cp r,
    codepoints s = cp :: codepoints r
    /\ s = encode_codepoint cp ++ r
    /\ utf8_valid r = true
    /\ (cp <? 1114112)%N = true
    /\ String.length r < String.length s.
Proof.
  intros Hv Hn. destruct s as [|b0 r0]; [contradiction|].
  cbn [utf8_valid codepoints] in *.
  pose proof (N_ascii_bounded b0) as B0.
  destruct (N.ltb_spec (N_of_ascii b0) 128) as [L0|L0].
  { exists (N_of_ascii b0), r0. repeat split; auto.
    - unfold encode_codepoint. rewrite (proj2 (N.ltb_lt _ _) L0).
      now rewrite ascii_N_embedding.
    - apply N.ltb_lt. lia. }
  destruct (N.ltb_spec (N_of_ascii b0) 194) as [L1|L1]; [discriminate|].
  destruct (N.ltb_spec (N_of_ascii b0) 224) as [L2|L2].
  { destruct r0 as [|b1 r1]; [discriminate|].
    apply andb_prop in Hv. destruct Hv as [C1 Hv].
    apply andb_prop in C1. destruct C1 as [C1a C1b].
    apply N.leb_le in C1a. apply N.ltb_lt in C1b.
    eexists. exists r1. split; [reflexivity|]. repeat split; auto.
    - unfold encode_codepoint.
      rewrite (proj2 (N.ltb_ge _ 128)) by (bits; lia).
      rewrite (proj2 (N.ltb_lt _ 2048)) by (bits; lia).
      cbn [append]. f_equal; [|f_equal].
      + rewrite <- (ascii_N_embedding b0) at 1. f_equal. bits. lia.
      + rewrite <- (ascii_N_embedding b1) at 1. f_equal. bits. lia.
    - apply N.ltb_lt. bits. lia.
    - cbn. lia. }
  destruct (N.ltb_spec (N_of_ascii b0) 240) as [L3|L3].
  { destruct r0 as [|b1 [|b2 r2]]; try discriminate.
    apply andb_prop in Hv. destruct Hv as [Hv Hr].
    apply andb_prop in Hv. destruct Hv as [Hv O].
    apply andb_prop in Hv. destruct Hv as [C1 C2].
    apply andb_prop in C1. destruct C1 as [C1a C1b].
    apply andb_prop in C2. destruct C2 as [C2a C2b].
    apply N.leb_le in C1a, C2a. apply N.ltb_lt in C1b, C2b.
    assert (O' : N_of_ascii b0 = 224%N -> (160 <= N_of_ascii b1)%N).
    { intros E. rewrite E in O. cbn in O. now apply N.leb_le. }
    eexists. exists r2. split; [reflexivity|]. repeat split; auto.
    - unfold encode_codepoint.
      rewrite (proj2 (N.ltb_ge _ 128)) by (bits; lia).
      rewrite (proj2 (N.ltb_ge _ 2048)) by (bits; lia).
      rewrite (proj2 (N.ltb_lt _ 65536)) by (bits; lia).
      cbn [append]. f_equal; [|f_equal; [|f_equal]].
      + rewrite <- (ascii_N_embedding b0) at 1. f_equal. bits. lia.
      + rewrite <- (ascii_N_embedding b1) at 1. f_equal. bits. lia.
      + rewrite <- (ascii_N_embedding b2) at 1. f_equal. bits. lia.
    - apply N.ltb_lt. bits. lia.
    - cbn. lia. }
  destruct (N.ltb_spec (N_of_ascii b0) 245) as [L4|L4]; [|discriminate].
  destruct r0 as [|b1 [|b2 [|b3 r3]]]; try discriminate.
  apply andb_prop in Hv. destruct Hv as [Hv Hr].
  apply andb_prop in Hv. destruct Hv as [Hv O2].
  apply andb_prop in Hv. destruct Hv as [Hv O1].
  apply andb_prop in Hv. destruct Hv as [Hv C3].
  apply andb_prop in Hv. destruct Hv as [C1 C2].
  apply andb_prop in C1. destruct C1 as [C1a C1b].
  apply andb_prop in C2. destruct C2 as [C2a C2b].
  apply andb_prop in C3. destruct C3 as [C3a C3b].
  apply N.leb_le in C1a, C2a, C3a. apply N.ltb_lt in C1b, C2b, C3b.
  assert (O1' : N_of_ascii b0 = 240%N -> (144 <= N_of_ascii b1)%N).
  { intros E. rewrite E in O1. cbn in O1. now apply N.leb_le. }
  assert (O2' : N_of_ascii b0 = 244%N -> (N_of_ascii b1 < 144)%N).
  { intros E. rewrite E in O2. cbn in O2. now apply N.ltb_lt. }
  eexists. exists r3. split; [reflexivity|]. repeat split; auto.
  - unfold encode_codepoint.
    rewrite (proj2 (N.ltb_ge _ 128)) by (bits; lia).
    rewrite (proj2 (N.ltb_ge _ 2048)) by (bits; lia).
    rewrite (proj2 (N.ltb_ge _ 65536)) by (bits; lia).
    cbn [append]. f_equal; [|f_equal; [|f_equal; [|f_equal]]].
    + rewrite <- (ascii_N_embedding b0) at 1. f_equal. bits. lia.
    + rewrite <- (ascii_N_embedding b1) at 1. f_equal. bits. lia.
    + rewrite <- (ascii_N_embedding b2) at 1. f_equal. bits. lia.
    + rewrite <- (ascii_N_embedding b3) at 1. f_equal. bits. lia.
  - apply N.ltb_lt. bits. lia.
  - cbn. lia.
Qed.

Lemma codepoints_encode_fuel (n : nat) (s : string) :
  String.length s <= n -> utf8_valid s = true ->
  String.concat EmptyString (map encode_codepoint (codepoints s)) = s
  /\ forallb (fun cp => (cp <? 1114112)%N) (codepoints s) = true.
Proof.
  revert s; induction n as [|n IH]; intros s Hl Hv.
  - destruct s; [split; reflexivity | cbn in Hl; lia].
  - destruct s as [|b r]; [split; reflexivity|].
    destruct (utf8_step (String b r) Hv) as [cp [r' [E1 [E2 [Hv' [Hr Hlen]]]]]];
      [discriminate|].
    destruct (IH r' ltac:(lia) Hv') as [I1 I2].
    rewrite E1. cbn [map forallb]. rewrite concat_cons, I1, I2, Hr.
    split; [now rewrite <- E2 | reflexivity].
Qed.

Lemma codepoints_encode (s : string) :
  utf8_valid s = true ->
  String.concat EmptyString (map encode_codepoint (codepoints s)) = s
  /\ forallb (fun cp => (cp <? 1114112)%N) (codepoints s) = true.
Proof. apply (codepoints_encode_fuel (String.length s)). lia. Qed.

Lemma strict_scalar (s : string) :
  utf8_strict s = true ->
  forallb scalar (codepoints s) = true
  /\ String.concat EmptyString (map encode_codepoint (codepoints s)) = s.
Proof.
  unfold utf8_strict. intros H. apply andb_prop in H. destruct H as [Hv Hs].
  destruct (codepoints_encode s Hv) as [E R]. split; [|exact E].
  rewrite forallb_forall in *. intros cp Hc. unfold scalar.
  now rewrite (R cp Hc), (Hs cp Hc).
Qed.

Lemma length_append (a b : string) :
  String.length (a ++ b) = String.length a + String.length b.
Proof. induction a; cbn; auto. Qed.

Lemma escape_nonempty (cp : N) : 1 <= String.length (escape_codepoint cp).
Proof.
  unfold escape_codepoint, uescape.
  repeat match goal with
         | |- context [if ?b then _ else _] => destruct b
         end; cbn; lia.
Qed.

Lemma length_escaped (cps : list N) : length cps <= String.length (escaped cps).
Proof.
  induction cps as [|cp cps IH]; [cbn; lia|].
  rewrite escaped_cons, length_append. pose proof (escape_nonempty cp).
  cbn [length]. lia.
Qed.

Lemma encode_basestring_text (s rest : string) :
  encode_basestring_ascii s ++ rest
  = String dq (escaped (codepoints s) ++ String dq rest).
Proof.
  unfold encode_basestring_ascii, q, escaped. cbn [append].
  now rewrite append_assoc.
Qed.

(** A text, printed as a JSON string, is scanned back to itself. *)
Lemma scanstring_text (s rest : string) (f : nat) :
  utf8_strict s = true ->
  String.length (escaped (codepoints s) ++ String dq rest) < f ->
  scanstring f (escaped (codepoints s) ++ String dq rest) = Ok (s, rest).
Proof.
  intros Hs Hf. destruct (strict_scalar s Hs) as [Hc E].
  rewrite scanstring_escaped; [now rewrite E | exact Hc |].
  rewrite length_append in Hf. pose proof (length_escaped (codepoints s)). lia.
Qed.

Lemma dumps_array (l : list json) :
  dumps (JArray l) = "[" ++ String.concat ", " (map dumps l) ++ "]".
Proof.
  cbn [dumps]. do 2 f_equal.
  induction l as [|x l IH]; [reflexivity|].
  destruct l as [|y l]; [reflexivity|].
  cbn [map String.concat] in *. now rewrite <- IH.
Qed.

Lemma dumps_object (d : list (string * json)) :
  dumps (JObject d) = "{" ++ String.concat ", " (map member_text d) ++ "}".
Proof.
  cbn [dumps]. do 2 f_equal.
  induction d as [|[k x] d IH]; [reflexivity|].
  destruct d as [|[k' y] d]; [reflexivity|].
  cbn [map String.concat] in *. rewrite <- IH. reflexivity.
Qed.

(** *** Values *)

Lemma concat_items (x : string) (l : list string) (close rest : string) :
  String.concat ", " (x :: l) ++ close ++ rest = x ++ rest_items l close rest.
Proof.
  destruct l as [|y l]; [reflexivity|].
  cbn [String.concat rest_items]. now rewrite !append_assoc.
Qed.

Lemma of_int_head (z : Z) :
  exists c r, of_int z = String c r
              /\ (is_digit c = true \/ c = "-"%char).
Proof.
  unfold of_int. destruct z as [|p|p]; cbn [Z.to_int NilZero.string_of_int].
  - exists "0"%char, EmptyString. split; [reflexivity | now left].
  - destruct (to_uint_head p) as [c [r [E Hc]]].
    exists c, r. split.
    + unfold NilZero.string_of_uint. rewrite <- E.
      pose proof (Unsigned.to_uint_nonnil p).
      destruct (Pos.to_uint p); auto; contradiction.
    + left. unfold nonzero_digit in Hc. now apply andb_prop in Hc.
  - eexists. eexists. split; [reflexivity | now right].
Qed.

Lemma value_head (v : json) :
  plain v = true ->
  exists c r, dumps v = String c r /\ value_start c = true.
Proof.
  destruct v as [|[|]|z|lexeme|s|l|d]; try discriminate; intros _.
  1-3: eexists; eexists; split; reflexivity.
  - destruct (of_int_head z) as [c [r [E [H|H]]]]; exists c, r;
      (split; [exact E|]); [|now subst c].
    destruct (is_digit_not c H) as [_ [_ [_ [_ [_ [_ [_ [W [A B]]]]]]]]].
    unfold value_start. now rewrite W, A, B.
  - eexists; eexists; split; reflexivity.
  - rewrite dumps_array. eexists; eexists; split; reflexivity.
  - rewrite dumps_object. eexists; eexists; split; reflexivity.
Qed.

Lemma skip_ws_value (v : json) (tail : string) :
  plain v = true -> skip_ws (dumps v ++ tail) = dumps v ++ tail.
Proof.
  intros H. destruct (value_head v H) as [c [r [-> Hc]]].
  unfold value_start in Hc. apply andb_prop in Hc. destruct Hc as [Hc _].
  apply andb_prop in Hc. destruct Hc as [Hc _]. apply negb_true_iff in Hc.
  cbn. now rewrite Hc.
Qed.

Lemma dumps_nonempty (v : json) :
  plain v = true -> 1 <= String.length (dumps v).
Proof.
  intros H. destruct (value_head v H) as [c [r [-> _]]]. cbn. lia.
Qed.

Lemma safe_after_items (texts : list string) (close rest : string) :
  close = "]" \/ close = "}" -> safe_after (rest_items texts close rest) = true.
Proof. intros [->| ->]; destruct texts; reflexivity. Qed.

(** Dictionaries from pairs with different keys. *)
Lemma set_fresh (k : string) (v : json) (d : dict) :
  existsb (String.eqb k) (map fst d) = false ->
  PyDict.set k v d = (d ++ [(k, v)])%list.
Proof.
  induction d as [|[k' v'] d IH]; [reflexivity|].
  cbn [map fst existsb PyDict.set app]. intros H.
  apply orb_false_elim in H. destruct H as [H1 H2].
  now rewrite H1, (IH H2).
Qed.

Lemma distinct_app (a b : list string) :
  distinct (a ++ b) = true ->
  distinct b = true
  /\ forall k, In k a -> existsb (String.eqb k) b = false.
Proof.
  induction a as [|x a IH]; cbn [app distinct]; intros H.
  - split; [exact H | intros k []].
  - apply andb_prop in H. destruct H as [H1 H2].
    destruct (IH H2) as [I1 I2]. split; [exact I1|].
    intros k [<-|Hk]; [|now apply I2].
    apply negb_true_iff in H1. rewrite existsb_app in H1.
    now apply orb_false_elim in H1.
Qed.

Lemma of_pairs_distinct_gen (d acc : dict) :
  distinct (map fst (acc ++ d)) = true ->
  fold_left (fun a kv => PyDict.set (fst kv) (snd kv) a) d acc
  = (acc ++ d)%list.
Proof.
  revert acc; induction d as [|[k v] d IH]; intros acc H.
  - cbn [fold_left]. symmetry. apply List.app_nil_r.
  - cbn [fold_left fst snd].
    replace (acc ++ (k, v) :: d)%list with ((acc ++ [(k, v)]) ++ d)%list in *
      by (rewrite <- List.app_assoc; reflexivity).
    rewrite set_fresh; [apply IH; exact H|].
    rewrite !map_app in H. rewrite <- List.app_assoc in H.
    clear IH. induction acc as [|[k' v'] acc IHa]; [reflexivity|].
    cbn [map fst app distinct existsb] in *.
    apply andb_prop in H. destruct H as [H1 H2].
    rewrite (IHa H2), orb_false_r.
    apply negb_true_iff in H1. rewrite existsb_app in H1.
    apply orb_false_elim in H1. destruct H1 as [_ H1].
    cbn [map fst app existsb] in H1.
    apply orb_false_elim in H1. destruct H1 as [H1 _].
    now rewrite String.eqb_sym.
Qed.

Lemma of_pairs_distinct (d : dict) :
  distinct (map fst d) = true -> PyDict.of_pairs d = d.
Proof. intros H. apply (of_pairs_distinct_gen d []). exact H. Qed.

Lemma array_text (x : json) (l : list json) (rest : string) :
  dumps (JArray (x :: l)) ++ rest
  = String "[" (dumps x ++ rest_items (map dumps l) "]" rest).
Proof.
  rewrite dumps_array, !append_assoc.
  cbn [map]. rewrite concat_items. reflexivity.
Qed.

Lemma member_items (k : string) (x : json) (d : dict) (rest : string) :
  member_text (k, x) ++ rest_items (map member_text d) "}" rest
  = String dq (member_tail k x d rest).
Proof.
  unfold member_text, member_tail. cbn [fst snd].
  rewrite append_assoc, encode_basestring_text, append_assoc. reflexivity.
Qed.

Lemma object_text (k : string) (x : json) (d : dict) (rest : string) :
  dumps (JObject ((k, x) :: d)) ++ rest
  = String "{" (String dq (member_tail k x d rest)).
Proof.
  rewrite dumps_object, !append_assoc.
  cbn [map]. rewrite concat_items, member_items. reflexivity.
Qed.

Lemma scan_once_int (f : nat) (z : Z) (rest : string) :
  safe_after rest = true ->
  scan_once (S f) (of_int z ++ rest) = Ok (JInt z, rest).
Proof.
  intros Hs. pose proof (match_number_of_int z rest Hs) as M.
  destruct (of_int_head z) as [c [r [E H]]]. rewrite E in *.
  cbn [append] in *. destruct H as [H|H].
  - destruct (is_digit_not c H) as [_ [A [B [C [D [G [F _]]]]]]].
    cbn [scan_once]. rewrite A, B, C.
    cbn [String.prefix].
    destruct (ascii_dec "n" c) as [<-|_]; [now elim D|].
    destruct (ascii_dec "t" c) as [<-|_]; [now elim G|].
    destruct (ascii_dec "f" c) as [<-|_]; [now elim F|].
    now rewrite M.
  - subst c. cbn [scan_once Ascii.eqb Bool.eqb String.prefix].
    destruct (ascii_dec "n" "-") as [X|_]; [discriminate X|].
    destruct (ascii_dec "t" "-") as [X|_]; [discriminate X|].
    destruct (ascii_dec "f" "-") as [X|_]; [discriminate X|].
    now rewrite M.
Qed.

Lemma skip_ws_start (c : ascii) (r : string) :
  is_ws c = false -> skip_ws (String c r) = String c r.
Proof. intros H. cbn. now rewrite H. Qed.

Lemma skip_ws_space (s : string) : skip_ws (String " " s) = skip_ws s.
Proof. reflexivity. Qed.

Lemma length_member_tail (k : string) (x : json) (d : dict) (rest : string) :
  String.length (member_tail k x d rest)
  = String.length (escaped (codepoints k)) + 3
    + String.length (dumps x ++ rest_items (map member_text d) "}" rest).
Proof. unfold member_tail. rewrite length_append. cbn. lia. Qed.

Lemma prefix_append (a b : string) : String.prefix a (a ++ b) = true.
Proof.
  induction a as [|c a IH]; [now destruct b|].
  cbn [append String.prefix]. now destruct (ascii_dec c c).
Qed.

Lemma scan_once_null (f : nat) (rest : string) :
  scan_once (S f) ("null" ++ rest) = Ok (JNull, rest).
Proof.
  pose proof (prefix_append "null" rest) as P. cbn [append] in *.
  cbn [scan_once Ascii.eqb Bool.eqb]. now rewrite P.
Qed.

Lemma scan_once_true (f : nat) (rest : string) :
  scan_once (S f) ("true" ++ rest) = Ok (JBool true, rest).
Proof.
  pose proof (prefix_append "true" rest) as P. cbn [append] in *.
  cbn [scan_once Ascii.eqb Bool.eqb]. rewrite P.
  cbn [String.prefix]. now destruct (ascii_dec "n" "t").
Qed.

Lemma scan_once_false (f : nat) (rest : string) :
  scan_once (S f) ("false" ++ rest) = Ok (JBool false, rest).
Proof.
  pose proof (prefix_append "false" rest) as P. cbn [append] in *.
  cbn [scan_once Ascii.eqb Bool.eqb]. rewrite P.
  cbn [String.prefix].
  destruct (ascii_dec "n" "f") as [X|_]; [discriminate X|].
  now destruct (ascii_dec "t" "f").
Qed.

Lemma scan_once_object (f : nat) (r : string) :
  scan_once (S f) (String "{" (String dq r)) = object_loop f r [].
Proof. reflexivity. Qed.

Lemma scan_dumps (f : nat) :
  (forall v rest,
      plain v = true -> safe_after rest = true ->
      2 * String.length (dumps v ++ rest) + 1 <= f ->
      scan_once f (dumps v ++ rest) = Ok (v, rest))
  /\ (forall x l acc rest,
         plain x = true -> forallb plain l = true ->
         2 * String.length (dumps x ++ rest_items (map dumps l) "]" rest) + 2
         <= f ->
         array_loop f (dumps x ++ rest_items (map dumps l) "]" rest) acc
         = Ok (JArray (List.rev acc ++ x :: l), rest))
  /\ (forall k x d pairs rest,
         utf8_strict k = true -> plain x = true ->
         forallb utf8_strict (map fst d) = true ->
         forallb (fun kv => plain (snd kv)) d = true ->
         2 * String.length (member_tail k x d rest) + 2 <= f ->
         object_loop f (member_tail k x d rest) pairs
         = Ok (JObject (PyDict.of_pairs (List.rev pairs ++ (k, x) :: d)), rest)).
Proof.
  induction f as [|f [IHs [IHa IHo]]].
  { repeat split; intros; lia. }
  split; [|split].
  - (* scan_once *)
    intros v rest Hv Hr Hf.
    destruct v as [|[|]|z|lexeme|s|l|d]; try discriminate Hv.
    + apply scan_once_null.
    + apply scan_once_true.
    + apply scan_once_false.
    + now apply scan_once_int.
    + cbn [dumps plain] in *. rewrite encode_basestring_text in *.
      cbn [scan_once]. rewrite Ascii.eqb_refl.
      rewrite scanstring_text; [reflexivity | exact Hv | lia].
    + destruct l as [|x l]; [reflexivity|].
      rewrite array_text in *. cbn [plain forallb] in Hv.
      apply andb_prop in Hv. destruct Hv as [Hx Hl].
      cbn [scan_once Ascii.eqb Bool.eqb].
      rewrite (skip_ws_value x _ Hx).
      specialize (IHa x l [] rest Hx Hl).
      destruct (value_head x Hx) as [c [r [E Hc]]].
      rewrite E in *. cbn [append] in *.
      unfold value_start in Hc. apply andb_prop in Hc. destruct Hc as [Hc _].
      apply andb_prop in Hc. destruct Hc as [_ Hc].
      apply negb_true_iff in Hc. rewrite Hc.
      apply IHa. cbn [String.length] in *. lia.
    + destruct d as [|[k x] d]; [reflexivity|].
      rewrite object_text in *.
      assert (D : PyDict.of_pairs ((k, x) :: d) = (k, x) :: d).
      { apply of_pairs_distinct. cbn [plain] in Hv.
        apply andb_prop in Hv. destruct Hv as [Hv _].
        now apply andb_prop in Hv. }
      cbn [plain map fst snd forallb] in Hv.
      apply andb_prop in Hv. destruct Hv as [Hv Hp].
      apply andb_prop in Hv. destruct Hv as [Hk _].
      apply andb_prop in Hk. destruct Hk as [Hk Hks].
      apply andb_prop in Hp. destruct Hp as [Hx Hp].
      rewrite scan_once_object.
      rewrite (IHo k x d [] rest Hk Hx Hks Hp).
      * cbn [List.rev List.app]. now rewrite D.
      * cbn [String.length] in Hf. lia.
  - (* array_loop *)
    intros x l acc rest Hx Hl Hf.
    cbn [array_loop].
    rewrite IHs; [| exact Hx | now apply safe_after_items; left | lia].
    cbn [bind].
    destruct l as [|y l].
    + cbn [map rest_items append].
      rewrite skip_ws_start by reflexivity.
      cbn [Ascii.eqb Bool.eqb List.rev]. reflexivity.
    + cbn [forallb] in Hl. apply andb_prop in Hl. destruct Hl as [Hy Hl].
      cbn [map]. unfold rest_items at 1.
      rewrite concat_items. cbn [append].
      rewrite skip_ws_start by reflexivity.
      cbn [Ascii.eqb Bool.eqb].
      rewrite skip_ws_space, (skip_ws_value y _ Hy).
      rewrite (IHa y l (x :: acc) rest Hy Hl).
      * cbn [List.rev]. rewrite <- List.app_assoc. reflexivity.
      * rewrite length_append in Hf. pose proof (dumps_nonempty x Hx).
        cbn [map] in Hf. unfold rest_items at 1 in Hf.
        rewrite concat_items in Hf. cbn [append String.length] in Hf. lia.
  - (* object_loop *)
    intros k x d pairs rest Hk Hx Hks Hp Hf.
    rewrite length_member_tail in Hf.
    cbn [object_loop]. unfold member_tail at 1 2.
    rewrite scanstring_text; [| exact Hk | fold (member_tail k x d rest);
                                            rewrite length_member_tail; lia].
    cbn [bind append].
    rewrite skip_ws_start by reflexivity.
    cbn [Ascii.eqb Bool.eqb].
    rewrite skip_ws_space, (skip_ws_value x _ Hx).
    rewrite IHs; [| exact Hx | now apply safe_after_items; right | lia].
    cbn [bind].
    destruct d as [|[k' y] d].
    + cbn [map rest_items append].
      rewrite skip_ws_start by reflexivity.
      cbn [Ascii.eqb Bool.eqb List.rev]. reflexivity.
    + cbn [map fst snd forallb] in Hks, Hp.
      apply andb_prop in Hks. destruct Hks as [Hk' Hks].
      apply andb_prop in Hp. destruct Hp as [Hy Hp].
      cbn [map]. unfold rest_items at 1.
      rewrite concat_items, member_items. cbn [append].
      rewrite skip_ws_start by reflexivity.
      cbn [Ascii.eqb Bool.eqb].
      rewrite skip_ws_space, (skip_ws_start dq) by reflexivity.
      rewrite Ascii.eqb_refl.
      rewrite (IHo k' y d ((k, x) :: pairs) rest Hk' Hy Hks Hp).
      * cbn [List.rev]. rewrite <- List.app_assoc. reflexivity.
      * rewrite length_append in Hf. pose proof (dumps_nonempty x Hx).
        cbn [map] in Hf. unfold rest_items at 1 in Hf.
        rewrite concat_items, member_items in Hf.
        cbn [append String.length] in Hf. lia.
Qed.

(** *** Printed documents are printable ASCII *)

Lemma all_chars_append (p : ascii -> bool) (a b : string) :
  all_chars p (a ++ b) = all_chars p a && all_chars p b.
Proof.
  induction a as [|c a IH]; [reflexivity|].
  cbn [append all_chars]. now rewrite IH, andb_assoc.
Qed.

Lemma all_chars_weaken (p p' : ascii -> bool) (s : string) :
  (forall c, p c = true -> p' c = true) ->
  all_chars p s = true -> all_chars p' s = true.
Proof.
  intros W. induction s as [|c s IH]; [reflexivity|].
  cbn [all_chars]. intros H. apply andb_prop in H. destruct H as [H1 H2].
  now rewrite (W c H1), (IH H2).
Qed.

Lemma digit_printable (c : ascii) : is_digit c = true -> printable c = true.
Proof.
  unfold is_digit, printable. intros H. apply andb_prop in H.
  destruct H as [H1 H2]. apply N.leb_le in H1, H2.
  apply andb_true_intro. split; apply N.leb_le; lia.
Qed.

Lemma of_int_printable (z : Z) : all_chars printable (of_int z) = true.
Proof.
  assert (U : forall d, all_chars printable (NilZero.string_of_uint d) = true).
  { intros d. unfold NilZero.string_of_uint.
    destruct d; try reflexivity;
      apply (all_chars_weaken is_digit _ _ digit_printable);
      apply (all_digits_uint (_ _)). }
  unfold of_int. destruct (Z.to_int z); cbn [NilZero.string_of_int].
  - apply U.
  - cbn [all_chars]. now rewrite U.
Qed.

Lemma printable_of_N (n : N) :
  (32 <= n <= 126)%N -> printable (ascii_of_N n) = true.
Proof.
  intros H. unfold printable. rewrite N_ascii_embedding by lia.
  apply andb_true_intro. split; apply N.leb_le; lia.
Qed.

Lemma hex_digit_printable (d : N) :
  (d < 16)%N -> printable (hex_digit d) = true.
Proof.
  intros H. unfold hex_digit.
  destruct (N.ltb_spec d 10); apply printable_of_N; lia.
Qed.

Lemma uescape_printable (n : N) : all_chars printable (uescape n) = true.
Proof.
  unfold uescape, hex4. cbn [append all_chars].
  rewrite !hex_digit_printable; [reflexivity|..]; bits; lia.
Qed.

Lemma escape_codepoint_printable (n : N) :
  all_chars printable (escape_codepoint n) = true.
Proof.
  unfold escape_codepoint.
  repeat match goal with
         | |- context [if (n =? ?k)%N then _ else _] =>
             destruct (n =? k)%N; [reflexivity|]
         end.
  destruct ((32 <=? n) && (n <? 127))%N eqn:R.
  - apply andb_prop in R. destruct R as [R1 R2].
    apply N.leb_le in R1. apply N.ltb_lt in R2.
    cbn [all_chars]. rewrite printable_of_N by lia. reflexivity.
  - destruct (n <? 65536)%N; [apply uescape_printable|].
    cbv zeta. rewrite all_chars_append, !uescape_printable. reflexivity.
Qed.

Lemma escaped_printable (cps : list N) :
  all_chars printable (escaped cps) = true.
Proof.
  induction cps as [|cp cps IH]; [reflexivity|].
  now rewrite escaped_cons, all_chars_append, escape_codepoint_printable, IH.
Qed.

Lemma encode_basestring_printable (s : string) :
  all_chars printable (encode_basestring_ascii s) = true.
Proof.
  rewrite <- (append_empty_r (encode_basestring_ascii s)).
  rewrite encode_basestring_text. cbn [all_chars].
  rewrite all_chars_append, escaped_printable. reflexivity.
Qed.

Lemma concat_printable (l : list string) :
  Forall (fun s => all_chars printable s = true) l ->
  all_chars printable (String.concat ", " l) = true.
Proof.
  induction 1 as [|x l Hx Hl IH]; [reflexivity|].
  destruct l as [|y l]; [exact Hx|].
  cbn [String.concat] in *. now rewrite !all_chars_append, Hx, IH.
Qed.

Lemma dumps_printable (v : json) :
  float_free v = true -> all_chars printable (dumps v) = true.
Proof.
  induction v as [|[|]|z|lexeme|s|items IH|members IH] using json_induction;
    try reflexivity; try discriminate.
  - intros _. apply of_int_printable.
  - intros _. apply encode_basestring_printable.
  - intros H. rewrite dumps_array. cbn [append all_chars].
    rewrite all_chars_append, concat_printable; [reflexivity|].
    cbn [float_free] in H. apply Forall_map.
    induction IH as [|x l Hx Hl IHl]; [constructor|].
    cbn [forallb] in H. apply andb_prop in H. destruct H as [H1 H2].
    constructor; auto.
  - intros H. rewrite dumps_object. cbn [append all_chars].
    rewrite all_chars_append, concat_printable; [reflexivity|].
    cbn [float_free] in H. apply Forall_map.
    induction IH as [|[k x] l Hx Hl IHl]; [constructor|].
    cbn [forallb snd] in H. apply andb_prop in H. destruct H as [H1 H2].
    constructor; [|auto].
    unfold member_text. cbn [fst snd] in *.
    now rewrite !all_chars_append, encode_basestring_printable, (Hx H1).
Qed.

Lemma plain_float_free (v : json) : plain v = true -> float_free v = true.
Proof.
  induction v as [|[|]|z|lexeme|s|items IH|members IH] using json_induction;
    try reflexivity; try discriminate.
  - cbn [plain float_free]. induction IH as [|x l Hx Hl IHl]; [reflexivity|].
    cbn [forallb]. intros H. apply andb_prop in H. destruct H as [H1 H2].
    now rewrite (Hx H1), (IHl H2).
  - cbn [plain float_free]. intros H. apply andb_prop in H.
    destruct H as [_ H]. revert H.
    induction IH as [|[k x] l Hx Hl IHl]; [reflexivity|].
    cbn [forallb snd] in *. intros H. apply andb_prop in H.
    destruct H as [H1 H2]. now rewrite (Hx H1), (IHl H2).
Qed.

(** *** Printable bytes are read as UTF-8 *)

Lemma printable_ascii (c : ascii) :
  printable c = true -> (32 <= N_of_ascii c <= 126)%N.
Proof.
  unfold printable. intros H. apply andb_prop in H. destruct H as [H1 H2].
  apply N.leb_le in H1, H2. lia.
Qed.

Lemma utf8_valid_printable (b : string) :
  all_chars printable b = true -> utf8_valid b = true.
Proof.
  induction b as [|c b IH]; [reflexivity|].
  cbn [all_chars utf8_valid]. intros H. apply andb_prop in H.
  destruct H as [H1 H2]. apply printable_ascii in H1.
  cbv zeta. destruct (N.ltb_spec (N_of_ascii c) 128); [auto | lia].
Qed.

Lemma prefix_head (c d : ascii) (a b : string) :
  c <> d -> String.prefix (String c a) (String d b) = false.
Proof. intros H. cbn [String.prefix]. now destruct (ascii_dec c d). Qed.

Lemma byte_at_printable (k : nat) (b : string) :
  all_chars printable b = true -> k < String.length b ->
  (byte_at k b =? 0)%N = false.
Proof.
  revert k; induction b as [|c b IH]; intros k H L; [cbn in L; lia|].
  cbn [all_chars] in H. apply andb_prop in H. destruct H as [H1 H2].
  destruct k as [|k].
  - apply printable_ascii in H1. unfold byte_at. cbn [String.get].
    apply N.eqb_neq. lia.
  - cbn [String.length] in L. unfold byte_at in *. cbn [String.get].
    apply IH; [exact H2 | lia].
Qed.

Lemma detect_encoding_printable (b : string) :
  all_chars printable b = true -> detect_encoding b = utf_8.
Proof.
  intros H. unfold detect_encoding.
  assert (P : forall n l, (n < 32 \/ 126 < n)%N -> (n < 256)%N ->
                          String.prefix (bytes_of (n :: l)) b = false).
  { intros n l Hn Hb. destruct b as [|c b]; [reflexivity|].
    cbn [bytes_of fold_right]. apply prefix_head. intros <-.
    cbn [all_chars] in H. apply andb_prop in H. destruct H as [H _].
    apply printable_ascii in H. rewrite N_ascii_embedding in H; lia. }
  unfold BOM_UTF32_BE, BOM_UTF32_LE, BOM_UTF16_BE, BOM_UTF16_LE, BOM_UTF8.
  rewrite !P by lia. cbn [orb].
  destruct (Nat.leb_spec 4 (String.length b)).
  - rewrite !(byte_at_printable _ b H) by lia. reflexivity.
  - destruct (Nat.eqb_spec (String.length b) 2); [|reflexivity].
    rewrite !(byte_at_printable _ b H) by lia. reflexivity.
Qed.

Lemma decode_printable (b : string) :
  all_chars printable b = true -> decode b = Ok b.
Proof.
  intros H. unfold decode.
  now rewrite (detect_encoding_printable b H), (utf8_valid_printable b H).
Qed.

(** *** The round trip *)

Lemma decode_text_dumps (v : json) :
  plain v = true -> decode_text (dumps v) = Ok v.
Proof.
  intros H. unfold decode_text.
  pose proof (skip_ws_value v EmptyString H) as W.
  pose proof (proj1 (scan_dumps (2 * String.length (dumps v) + 2))
                v EmptyString H eq_refl) as S.
  rewrite append_empty_r in *. rewrite W, S by lia. reflexivity.
Qed.

Lemma loads_dumps (v : json) : plain v = true -> loads (dumps v) = Ok v.
Proof.
  intros H. unfold loads.
  rewrite decode_printable by (apply dumps_printable, plain_float_free, H).
  cbn [bind]. now apply decode_text_dumps.
Qed.

End JsonTextFacts.

(** ** The events and the documents, read back *)

Import PyJson JsonText JsonTextFacts.

(** *** Payloads and events *)

Lemma payload_plain (content : string) (fr : option string) (now : Z) :
  utf8_strict content = true ->
  (forall reason, fr = Some reason -> utf8_strict reason = true) ->
  plain (make_sse_chunk_payload content fr now) = true.
Proof.
  intros Hc Hr. unfold make_sse_chunk_payload.
  assert (S1 : forall v, PyDict.set "content" v [] = [("content", v)])
    by reflexivity.
  assert (S2 : forall v a b,
             PyDict.set "finish_reason" v [("index", a); ("delta", b)]
             = [("index", a); ("delta", b); ("finish_reason", v)])
    by reflexivity.
  destruct (truthy content); destruct fr as [reason|].
  1, 3: pose proof (Hr reason eq_refl) as R; destruct (truthy reason).
  all: cbv zeta; rewrite ?S1, ?S2; cbn [plain forallb map fst snd];
    rewrite ?Hc, ?R; vm_compute; reflexivity.
Qed.

Lemma payload_float_free (content : string) (fr : option string) (now : Z) :
  float_free (make_sse_chunk_payload content fr now) = true.
Proof.
  unfold make_sse_chunk_payload.
  destruct (truthy content); destruct fr as [reason|];
    try destruct (truthy reason); reflexivity.
Qed.

Lemma substring_prefix (a b : string) :
  String.substring 0 (String.length a) (a ++ b) = a.
Proof.
  induction a as [|c a IH]; [now destruct b|].
  cbn [String.length append String.substring]. now rewrite IH.
Qed.

Lemma decode_sse_data (payload : json) :
  plain payload = true -> sse_data payload <> DONE ->
  decode_event (sse_data payload) = Some (Ok payload).
Proof.
  intros Hp Hd. unfold decode_event.
  destruct (String.eqb_spec (sse_data payload) DONE) as [E|_]; [now elim Hd|].
  unfold sse_data. rewrite !length_append.
  replace (String.length "data: " + (String.length (dumps payload)
                                     + (String.length nl + String.length nl))
           - 8) with (String.length (dumps payload)) by (cbn; lia).
  cbn [append String.substring]. rewrite substring_prefix.
  now rewrite loads_dumps.
Qed.

(** *** Text cut at a space *)

Ltac split_and :=
  repeat match goal with
         | H : _ && _ = true |- _ => apply andb_prop in H; destruct H
         end.

Ltac dead H NC :=
  rewrite ?NC in H;
  repeat (progress (rewrite ?andb_false_r in H; cbn [andb] in H));
  discriminate H.

Lemma utf8_strict_cut (n : nat) :
  forall (a : string) (c : ascii) (b : string),
    String.length a <= n -> (N_of_ascii c < 128)%N ->
    utf8_strict (a ++ String c b) = true ->
    utf8_strict a = true /\ utf8_strict b = true.
Proof.
  unfold utf8_strict.
  induction n as [|n IH]; intros a c b L Hc H.
  - destruct a; [|cbn in L; lia].
    cbn [append utf8_valid codepoints] in H. cbv zeta in H.
    apply N.ltb_lt in Hc. rewrite Hc in H. cbn [forallb] in H.
    split_and. split; [reflexivity|]. now apply andb_true_intro.
  - destruct a as [|b0 r0].
    { apply (IH EmptyString c b); [cbn; lia | exact Hc | exact H]. }
    assert (NC : ((128 <=? N_of_ascii c) && (N_of_ascii c <? 192))%N = false).
    { apply andb_false_intro1. apply N.leb_gt. exact Hc. }
    cbn [append utf8_valid codepoints] in H |- *. cbv zeta in H |- *.
    cbn [String.length] in L.
    destruct (N_of_ascii b0 <? 128)%N.
    { cbn [forallb] in H. split_and.
      destruct (IH r0 c b) as [I1 I2]; [lia | exact Hc | |].
      - now apply andb_true_intro.
      - split; [|exact I2]. cbn [forallb]. split_and.
        repeat (apply andb_true_intro; split); assumption. }
    destruct (N_of_ascii b0 <? 194)%N; [discriminate H|].
    destruct (N_of_ascii b0 <? 224)%N.
    { destruct r0 as [|b1 r1]; cbn [append] in H.
      { dead H NC. }
      cbn [forallb String.length] in *. split_and.
      destruct (IH r1 c b) as [I1 I2]; [lia | exact Hc | |].
      - now apply andb_true_intro.
      - split; [|exact I2]. split_and.
        repeat (apply andb_true_intro; split); assumption. }
    destruct (N_of_ascii b0 <? 240)%N.
    { destruct r0 as [|b1 [|b2 r2]]; cbn [append] in H.
      1, 2: try destruct b; dead H NC.
      cbn [forallb String.length] in *. split_and.
      destruct (IH r2 c b) as [I1 I2]; [lia | exact Hc | |].
      - now apply andb_true_intro.
      - split; [|exact I2]. split_and.
        repeat (apply andb_true_intro; split); assumption. }
    destruct (N_of_ascii b0 <? 245)%N.
    { destruct r0 as [|b1 [|b2 [|b3 r3]]]; cbn [append] in H.
      1, 2, 3: try destruct b as [|? [|? ?]]; dead H NC.
      cbn [forallb String.length] in *. split_and.
      destruct (IH r3 c b) as [I1 I2]; [lia | exact Hc | |].
      - now apply andb_true_intro.
      - split; [|exact I2]. split_and.
        repeat (apply andb_true_intro; split); assumption. }
    discriminate H.
Qed.

Lemma utf8_strict_words (ws : list string) :
  utf8_strict (String.concat " " ws) = true ->
  Forall (fun w => utf8_strict w = true) ws.
Proof.
  induction ws as [|w ws IH]; [constructor|].
  destruct ws as [|w' ws]; [intros H; repeat constructor; exact H|].
  change (String.concat " " (w :: w' :: ws))
    with (w ++ String " " (String.concat " " (w' :: ws))).
  intros H.
  destruct (utf8_strict_cut (String.length w) w " " _ (le_n _)
              ltac:(reflexivity) H) as [H1 H2].
  constructor; [exact H1 | exact (IH H2)].
Qed.

Lemma utf8_strict_split (text : string) :
  utf8_strict text = true ->
  Forall (fun w => utf8_strict w = true) (split " " text).
Proof.
  intros H. apply utf8_strict_words.
  now rewrite (join_split " " text).
Qed.

Lemma utf8_strict_token (i : nat) (w : string) :
  utf8_strict w = true -> utf8_strict (token i w) = true.
Proof.
  intros H. unfold token. destruct (i =? 0)%nat; [exact H|].
  unfold utf8_strict in *. cbn [append utf8_valid codepoints forallb].
  exact H.
Qed.

(** X6.  An event of [make_sse_chunk] reads back as the payload it was
    printed from: for a content and a finish reason that are text (UTF-8
    that a [str] can be encoded to, so without surrogates), whatever
    characters they hold, quotes, backslashes, newlines and characters
    beyond ASCII included, a client that takes the text between [data: ]
    and the blank line and gives it to [json.loads] gets the dictionary
    that the function built, for every time stamp. *)
Theorem chunk_round_trip (content : string) (finish_reason : option string)
  (now : Z) :
  utf8_strict content = true ->
  (forall reason, finish_reason = Some reason -> utf8_strict reason = true) ->
  decode_event (make_sse_chunk content finish_reason now)
  = Some (Ok (make_sse_chunk_payload content finish_reason now)).
Proof.
  intros Hc Hr. apply decode_sse_data.
  - now apply payload_plain.
  - apply make_sse_chunk_not_DONE.
Qed.

Lemma chunk_round_trip_witness :
  decode_event (make_sse_chunk "héllo" (Some "stop") 1700000000%Z)
  = Some (Ok (make_sse_chunk_payload "héllo" (Some "stop") 1700000000%Z)).
Proof.
  apply chunk_round_trip.
  - reflexivity.
  - intros reason H. injection H as <-. reflexivity.
Defined.

(** X7.  A client that decodes the events of [stream_text] one by one gets,
    for every text (UTF-8 without surrogates) and every clock, the payloads
    of the words in order, then the final payload, then the sentinel, and no
    decoding error: cutting the text at its spaces leaves every word a
    text. *)
Theorem stream_decodes (text : string) (clock : nat -> Z) :
  utf8_strict text = true ->
  map decode_event (writes (stream_text [] text clock))
  = (map (fun p => Some (Ok p))
       (content_payloads text clock ++ [final_payload text clock])
     ++ [None])%list.
Proof.
  intros H. rewrite stream_text_writes. cbn [writes app].
  rewrite !map_app, map_map. cbn [map].
  rewrite <- List.app_assoc. f_equal.
  - apply map_ext_in. intros p Hp. unfold content_payloads in Hp.
    apply in_map_iff in Hp. destruct Hp as [[i w] [<- Hiw]].
    cbn [fst snd]. apply decode_sse_data.
    + apply payload_plain; [|discriminate].
      apply utf8_strict_token.
      pose proof (utf8_strict_split text H) as F.
      rewrite Forall_forall in F. apply F.
      unfold enumerate in Hiw. now apply in_combine_r in Hiw.
    + apply make_sse_chunk_not_DONE.
  - cbn [app]. rewrite decode_sse_data.
    + unfold decode_event. now rewrite String.eqb_refl.
    + apply payload_plain; [reflexivity|].
      intros reason E. injection E as <-. reflexivity.
    + apply make_sse_chunk_not_DONE.
Qed.

Lemma stream_decodes_witness :
  map decode_event (writes (stream_text [] "naïve café" example_clock))
  = (map (fun p => Some (Ok p))
       (content_payloads "naïve café" example_clock
        ++ [final_payload "naïve café" example_clock])
     ++ [None])%list.
Proof. apply stream_decodes. reflexivity. Defined.

(** X5.  Everything [stream_text] writes is framed as one event, whatever
    the text: [data: ], a data part of printable ASCII characters only, and
    a blank line.  So no newline, carriage return or byte beyond ASCII of
    the text reaches the wire unescaped, the two newlines that end an event
    are its only ones, and [chunk.encode()] cannot fail. *)
Theorem stream_lines (text : string) (clock : nat -> Z) :
  Forall (fun line =>
            exists data,
              line = "data: " ++ data ++ nl ++ nl
              /\ all_chars printable data = true)
    (writes (stream_text [] text clock)).
Proof.
  rewrite stream_text_writes. cbn [writes app].
  assert (E : forall p, float_free p = true ->
                        exists data, sse_data p = "data: " ++ data ++ nl ++ nl
                                     /\ all_chars printable data = true).
  { intros p Hp. exists (dumps p). split; [reflexivity|].
    now apply dumps_printable. }
  apply Forall_app. split.
  - apply Forall_map, Forall_map, Forall_forall. intros iw _.
    apply E, payload_float_free.
  - repeat constructor.
    + apply E, payload_float_free.
    + exists "[DONE]". split; reflexivity.
Qed.

(** X10.  The body of the model listing is a JSON document at every time: a
    client that decodes what [_handle_models] writes gets the object with
    [object] equal to [list] and the one entry of the model, created at the
    time of the request. *)
Theorem models_body_decodes (now : Z) :
  map loads (writes (wfile (_handle_models now no_reply)))
  = [Ok (JObject [("object", JString "list");
                  ("data",
                   JArray [JObject [("id", JString "demo-model-7b");
                                    ("object", JString "model");
                                    ("created", JInt now);
                                    ("owned_by", JString "demo")]])])].
Proof.
  unfold _handle_models. cbn [wfile_do end_headers send_header send_response
                              wfile writes map no_reply app].
  rewrite loads_dumps; [reflexivity|]. vm_compute. reflexivity.
Qed.

(** X11.  A completion request printed by [json.dumps] is understood as it
    was sent.  For an object without floats, with strings and keys that are
    text (UTF-8 without surrogates) and keys that differ within an object,
    whose [messages], where present, is a list of objects, sent with its
    length as [Content-Length] and followed on the connection by anything:
    the handler reads the body and no more, decodes it to the object that
    was printed, and streams the response picked by the number of its tool
    messages. *)
Theorem dumped_request_is_served (d : dict) (messages : list json)
  (more : string) (clock : nat -> Z) :
  plain (JObject d) = true ->
  py_get (JObject d) "messages" (JArray []) = Ok (JArray messages) ->
  Forall (fun m => is_dict m = true) messages ->
  let body := dumps (JObject d) in
  serve (completion_request (Some (String.length body)) (body ++ more)) clock
  = Ok (completion_reply (pick_response (count_tool_messages messages)) clock).
Proof.
  intros Hp Hm Hd body. rewrite serve_completions.
  apply (completions_reply _ _ (JObject d) (JArray messages) messages).
  - unfold read_body. cbn [content_length rfile completion_request].
    rewrite substring_prefix. unfold request_body.
    destruct (value_head (JObject d) Hp) as [c [r [E _]]].
    fold body in E. rewrite E. cbn [truthy]. rewrite <- E.
    now apply loads_dumps.
  - exact Hm.
  - reflexivity.
  - now apply sum_tool_counts.
Qed.

Lemma dumped_request_is_served_witness :
  let d := [("model", JString "demo-model-7b");
            ("messages",
             JArray [JObject [("role", JString "user");
                              ("content", JString "hi")];
                     JObject [("role", JString "tool");
                              ("content", JString "README.md")]])] in
  let body := dumps (JObject d) in
  serve (completion_request (Some (String.length body)) (body ++ "GET /"))
    example_clock
  = Ok (completion_reply TOOL_CALL_LIST_DIR example_clock).
Proof.
  intros d body.
  apply (dumped_request_is_served d
           [JObject [("role", JString "user"); ("content", JString "hi")];
            JObject [("role", JString "tool");
                     ("content", JString "README.md")]]
           "GET /" example_clock).
  - reflexivity.
  - reflexivity.
  - repeat constructor.
Defined.

(** ** The stream on the wire

    What a client reads.  The events are taken from the bytes written, the
    sentinel as the line [data: [DONE]] and a blank line, and the chunks by
    decoding the text between [data: ] and the blank line with
    [json.loads]. *)

Lemma decode_content_events (text : string) (clock : nat -> Z) :
  utf8_strict text = true ->
  map decode_event (map sse_data (content_payloads text clock))
  = map (fun p => Some (Ok p)) (content_payloads text clock).
Proof.
  intros H. rewrite map_map. apply map_ext_in. intros p Hp.
  unfold content_payloads in Hp.
  apply in_map_iff in Hp. destruct Hp as [[i w] [<- Hiw]].
  cbn [fst snd]. apply decode_sse_data.
  - apply payload_plain; [|discriminate].
    apply utf8_strict_token.
    pose proof (utf8_strict_split text H) as F.
    rewrite Forall_forall in F. apply F.
    unfold enumerate in Hiw. now apply in_combine_r in Hiw.
  - apply make_sse_chunk_not_DONE.
Qed.

Lemma decode_final_event (text : string) (clock : nat -> Z) :
  decode_event (sse_data (final_payload text clock))
  = Some (Ok (final_payload text clock)).
Proof.
  apply decode_sse_data; [|apply make_sse_chunk_not_DONE].
  apply payload_plain; [reflexivity|].
  intros reason E. injection E as <-. reflexivity.
Qed.

(** The bytes of the final event. *)
Lemma final_event_text (text : string) (clock : nat -> Z) :
  sse_data (final_payload text clock)
  = "data: {" ++ q "id" ++ ": " ++ q "chatcmpl-demo" ++ ", "
    ++ q "object" ++ ": " ++ q "chat.completion.chunk" ++ ", "
    ++ q "created" ++ ": " ++ of_int (clock (length (split " " text))) ++ ", "
    ++ q "model" ++ ": " ++ q "demo-model-7b" ++ ", "
    ++ q "choices" ++ ": [{" ++ q "index" ++ ": 0, "
    ++ q "delta" ++ ": {}, "
    ++ q "finish_reason" ++ ": " ++ q "stop" ++ "}]}" ++ nl ++ nl.
Proof.
  unfold final_payload. generalize (clock (length (split " " text))) as now.
  intros now. unfold sse_data, make_sse_chunk_payload.
  cbn [truthy]. cbv zeta.
  change (PyDict.set "finish_reason" (JString "stop")
            [("index", JInt 0); ("delta", JObject [])])
    with [("index", JInt 0); ("delta", JObject []);
          ("finish_reason", JString "stop")].
  cbn [dumps]. rewrite !append_assoc. reflexivity.
Qed.

Lemma length_content_payloads (text : string) (clock : nat -> Z) :
  length (content_payloads text clock) = length (split " " text).
Proof.
  unfold content_payloads. now rewrite length_map, length_enumerate.
Qed.

(** C2.  For every text, [stream_text] cuts the text at its spaces, single
    spaces only: the words joined by a space give the text, none contains a
    space, and there is one word more than there are spaces, so that a run of
    spaces yields empty words.  The fragment of the first word is the word
    itself and every later fragment is one space and the word, and the
    fragments concatenated are the text.  On the wire there is one event per
    fragment, [data: ], the JSON text of the chunk of the fragment and a
    blank line, then the final event, which decodes to a chunk without
    content, then the line [data: [DONE]]; the content of the chunk of a
    fragment is the fragment.  When the text is well-formed
    (UTF-8 without surrogates), decoding the events of the fragments gives
    chunks whose contents are the fragments, in order, so that the contents
    read from the wire and concatenated are the text, byte for byte. *)
Theorem stream_text_lossless (text : string) (clock : nat -> Z) :
  let words := split " " text in
  let fragments := map (fun iw => token (fst iw) (snd iw)) (enumerate words) in
  let chunks :=
    map (fun iw =>
           "data: "
           ++ dumps (make_sse_chunk_payload (token (fst iw) (snd iw)) None
                       (clock (fst iw)))
           ++ nl ++ nl) (enumerate words) in
  let sentinel := "data: [DONE]" ++ nl ++ nl in
  String.concat " " words = text
  /\ Forall (fun w => has_char " " w = false) words
  /\ length words = S (count_char " " text)
  /\ fragments = match words with
                 | [] => []
                 | w :: rest => w :: map (append " ") rest
                 end
  /\ String.concat EmptyString fragments = text
  /\ (exists terminal final,
         writes (stream_text [] text clock)
         = (chunks ++ [terminal; sentinel])%list
         /\ decode_event terminal = Some (Ok final)
         /\ delta_content final = None)
  /\ map content_text (content_payloads text clock) = fragments
  /\ (utf8_strict text = true ->
      exists payloads,
        map decode_event chunks = map (fun p => Some (Ok p)) payloads
        /\ map content_text payloads = fragments
        /\ String.concat EmptyString (map content_text payloads) = text).
Proof.
  intros words fragments chunks sentinel.
  assert (T : map content_text (content_payloads text clock) = fragments).
  { unfold content_payloads. rewrite map_map.
    apply map_ext. intros iw. apply payload_content_text. }
  assert (C : chunks = map sse_data (content_payloads text clock)).
  { unfold chunks, content_payloads. now rewrite map_map. }
  split; [apply join_split|].
  split; [apply split_words_clean|].
  split; [apply split_length|].
  split; [apply tokens_of_words|].
  split; [apply concat_tokens|].
  split.
  { exists (sse_data (final_payload text clock)), (final_payload text clock).
    split; [|split].
    - now rewrite stream_text_writes, C.
    - apply decode_final_event.
    - reflexivity. }
  split.
  - exact T.
  - intros H. exists (content_payloads text clock).
    split; [|split].
    + rewrite C. now apply decode_content_events.
    + exact T.
    + rewrite T. apply concat_tokens.
Qed.

(** A text with a run of two spaces and a character beyond ASCII: the
    contents read from the wire are its four fragments, the second a single
    space, and give the text again. *)
Lemma stream_text_lossless_witness :
  let text := "two  spaces, café" in
  exists payloads,
    map decode_event
      (map (fun iw =>
              "data: "
              ++ dumps (make_sse_chunk_payload (token (fst iw) (snd iw)) None
                          (example_clock (fst iw)))
              ++ nl ++ nl) (enumerate (split " " text)))
    = map (fun p => Some (Ok p)) payloads
    /\ map content_text payloads = ["two"; " "; " spaces,"; " café"]
    /\ String.concat EmptyString (map content_text payloads) = text.
Proof.
  intros text.
  exact (proj2 (proj2 (proj2 (proj2 (proj2 (proj2 (proj2
           (stream_text_lossless text example_clock))))))) eq_refl).
Defined.

(** C3.  For every text, what [stream_text] writes is the events of the
    words, one per word, then the terminal event, then the sentinel, which
    is the line [data: [DONE]] and a blank line.  The terminal event is,
    byte for byte, the chunk with the empty object as delta and the finish
    reason [stop], and it decodes to a chunk with that delta, without
    content, and with that finish reason.  The sentinel is written exactly
    once, and wherever it stands in the stream nothing follows it and all
    the events precede it. *)
Theorem stream_text_ends_with_DONE (text : string) (clock : nat -> Z) :
  let out := writes (stream_text [] text clock) in
  let chunks :=
    map (fun p => "data: " ++ dumps p ++ nl ++ nl)
      (content_payloads text clock) in
  let terminal :=
    "data: {" ++ q "id" ++ ": " ++ q "chatcmpl-demo" ++ ", "
    ++ q "object" ++ ": " ++ q "chat.completion.chunk" ++ ", "
    ++ q "created" ++ ": " ++ of_int (clock (length (split " " text))) ++ ", "
    ++ q "model" ++ ": " ++ q "demo-model-7b" ++ ", "
    ++ q "choices" ++ ": [{" ++ q "index" ++ ": 0, "
    ++ q "delta" ++ ": {}, "
    ++ q "finish_reason" ++ ": " ++ q "stop" ++ "}]}" ++ nl ++ nl in
  let sentinel := "data: [DONE]" ++ nl ++ nl in
  out = (chunks ++ [terminal; sentinel])%list
  /\ length chunks = S (count_char " " text)
  /\ (exists final,
         decode_event terminal = Some (Ok final)
         /\ delta_of final = Some (JObject [])
         /\ delta_content final = None
         /\ content_text final = EmptyString
         /\ finish_reason_of final = Some (JString "stop"))
  /\ count_occ string_dec out sentinel = 1%nat
  /\ (forall pre post, out = (pre ++ sentinel :: post)%list ->
      post = [] /\ pre = (chunks ++ [terminal])%list).
Proof.
  intros out chunks terminal sentinel.
  assert (T : terminal = sse_data (final_payload text clock))
    by (symmetry; apply final_event_text).
  assert (E : out = (chunks ++ [terminal; sentinel])%list).
  { unfold out. rewrite stream_text_writes, T. reflexivity. }
  assert (N : ~ In sentinel (chunks ++ [terminal])%list).
  { rewrite in_app_iff, T. intros [H|[H|[]]].
    - exact (content_events_not_DONE _ _ H).
    - exact (make_sse_chunk_not_DONE EmptyString (Some "stop")
               (clock (length (split " " text))) H). }
  split; [exact E|]. split.
  { unfold chunks. now rewrite length_map, length_content_payloads,
      split_length. }
  split.
  { exists (final_payload text clock). rewrite T, decode_final_event.
    repeat split. }
  split.
  - rewrite E.
    change [terminal; sentinel] with ([terminal] ++ [sentinel])%list.
    rewrite app_assoc, count_occ_app.
    rewrite (proj1 (count_occ_not_In string_dec _ _) N).
    simpl. destruct (string_dec sentinel sentinel); [reflexivity | contradiction].
  - intros pre post H. rewrite E in H.
    change [terminal; sentinel] with ([terminal] ++ [sentinel])%list in H.
    rewrite app_assoc in H.
    destruct (last_occurrence _ _ _ _ N H) as [-> ->]. now split.
Qed.

(** ** The replies to a completion request *)

(** A completion request that is answered is answered with the stream of a
    canned response. *)
Lemma completions_ok (cl : option nat) (rf : string) (clock : nat -> Z)
  (r : reply) :
  serve (completion_request cl rf) clock = Ok r ->
  exists n, r = completion_reply (pick_response n) clock.
Proof.
  rewrite serve_completions. set (req := completion_request cl rf).
  intros H.
  destruct (request_body (read_body req)) as [body|e] eqn:Hb;
    [|unfold _handle_completions in H; rewrite Hb in H; discriminate H].
  destruct (py_get body "messages" (JArray [])) as [messages|e] eqn:Hm;
    [|unfold _handle_completions in H; rewrite Hb in H; cbn [bind] in H;
      rewrite Hm in H; discriminate H].
  destruct (py_iter messages) as [items|e] eqn:Hi;
    [|unfold _handle_completions in H; rewrite Hb in H; cbn [bind] in H;
      rewrite Hm in H; cbn [bind] in H; rewrite Hi in H; discriminate H].
  destruct (sum_tool items) as [n|e] eqn:Hn.
  - rewrite (completions_reply _ _ _ _ _ _ Hb Hm Hi Hn) in H.
    injection H as <-. now exists n.
  - rewrite (handle_completions_raises _ _ _ _ _ _ Hb Hm Hi Hn) in H.
    discriminate H.
Qed.

(** The canned responses are well-formed text. *)
Lemma canned_text (n : nat) :
  utf8_strict (pick_response n) = true
  /\ (pick_response n = TOOL_CALL_READ_FILE
      \/ pick_response n = TOOL_CALL_LIST_DIR
      \/ pick_response n = FINAL_SUMMARY).
Proof.
  destruct n as [|[|n]]; (split; [vm_compute; reflexivity|]); auto.
Qed.

Lemma sum_tool_counts_tool (n : nat) :
  sum_tool (repeat (JObject [("role", JString "tool")]) n) = Ok n.
Proof.
  induction n as [|n IH]; [reflexivity|].
  cbn [repeat sum_tool]. rewrite role_is_tool_dict, IH. reflexivity.
Qed.

Lemma canned_reply_reached (n : nat) (clock : nat -> Z) :
  (n <= 2)%nat ->
  serve (completion_request (Some (String.length (tool_history_body n)))
           (tool_history_body n)) clock
  = Ok (completion_reply (pick_response n) clock).
Proof.
  intros Hn. rewrite serve_completions.
  set (history := repeat (JObject [("role", JString "tool")]) n).
  apply (completions_reply _ clock (JObject [("messages", JArray history)])
           (JArray history) history n).
  - unfold read_body. cbn [content_length rfile completion_request].
    rewrite <- (append_empty_r (tool_history_body n)) at 2.
    rewrite substring_prefix.
    assert (In n [0; 1; 2]%nat) as [<-|[<-|[<-|[]]]] by (cbn; lia);
      vm_compute; reflexivity.
  - reflexivity.
  - reflexivity.
  - apply sum_tool_counts_tool.
Qed.

(** C7.  For every streamed response, that is for every completion request
    that is answered: what is written is the events of the chunks, the
    terminal event and the sentinel line; every event decodes to a chunk,
    and all the chunks carry the identifier [chatcmpl-demo]; every chunk
    before the terminal one has a content that is present and not empty, and
    no finish reason; the terminal chunk has the empty object as delta, no
    content, and the finish reason [stop]. *)
Theorem streamed_chunks_invariant (cl : option nat) (rf : string)
  (clock : nat -> Z) (r : reply) :
  serve (completion_request cl rf) clock = Ok r ->
  let sentinel := "data: [DONE]" ++ nl ++ nl in
  exists chunks terminal payloads final,
    writes (wfile r) = (chunks ++ [terminal; sentinel])%list
    /\ map decode_event chunks = map (fun p => Some (Ok p)) payloads
    /\ decode_event terminal = Some (Ok final)
    /\ (forall p, In p (payloads ++ [final]) ->
        field "id" p = Some (JString "chatcmpl-demo"))
    /\ (forall p, In p payloads ->
        has_content p /\ finish_reason_of p = None)
    /\ delta_of final = Some (JObject [])
    /\ delta_content final = None
    /\ finish_reason_of final = Some (JString "stop").
Proof.
  intros H sentinel. destruct (completions_ok _ _ _ _ H) as [n ->].
  destruct (canned_text n) as [S _].
  destruct (chunk_invariant (pick_response n) clock)
    as [I1 [I2 [_ [I4 [I5 _]]]]].
  exists (map sse_data (content_payloads (pick_response n) clock)),
    (sse_data (final_payload (pick_response n) clock)),
    (content_payloads (pick_response n) clock),
    (final_payload (pick_response n) clock).
  split; [|split; [|split; [|split; [|split; [|split; [|split]]]]]].
  - cbn [wfile completion_reply]. now rewrite stream_text_writes.
  - now apply decode_content_events.
  - apply decode_final_event.
  - exact I1.
  - intros p Hp. split.
    + apply In_nth_error in Hp. destruct Hp as [i Hi].
      apply (I2 i p Hi). right. apply catalog_leading_word.
    + unfold content_payloads in Hp. apply in_map_iff in Hp.
      destruct Hp as [iw [<- _]]. apply payload_finish_reason.
  - exact I4.
  - reflexivity.
  - exact I5.
Qed.

(** The request with an empty list of messages, which is answered with the
    stream of the read-file body. *)
Lemma streamed_chunks_invariant_witness :
  let clock := example_clock in
  let r := completion_reply TOOL_CALL_READ_FILE clock in
  let sentinel := "data: [DONE]" ++ nl ++ nl in
  exists chunks terminal payloads final,
    writes (wfile r) = (chunks ++ [terminal; sentinel])%list
    /\ map decode_event chunks = map (fun p => Some (Ok p)) payloads
    /\ decode_event terminal = Some (Ok final)
    /\ (forall p, In p (payloads ++ [final]) ->
        field "id" p = Some (JString "chatcmpl-demo"))
    /\ (forall p, In p payloads ->
        has_content p /\ finish_reason_of p = None)
    /\ delta_of final = Some (JObject [])
    /\ delta_content final = None
    /\ finish_reason_of final = Some (JString "stop").
Proof.
  intros clock r.
  apply (streamed_chunks_invariant
           (Some (String.length EMPTY_MESSAGES_BODY)) EMPTY_MESSAGES_BODY
           clock r).
  vm_compute. reflexivity.
Defined.

(** X2.  The outcomes of a POST of /v1/chat/completions, for a request whose
    [Content-Length] is absent or a number.  An exception of [json.loads] on
    the body leaves the handler as it is, nothing being sent.  Once the body
    is decoded, the request is answered with the stream of a canned response
    or ends with an [AttributeError] or a [TypeError], nothing being sent.
    A request that is answered is answered with status 200, the three
    headers of an event stream and the stream of one of the three canned
    responses, and each of the three is the answer to some request. *)
Theorem completions_outcomes (cl : option nat) (rf : string)
  (clock : nat -> Z) :
  let req := completion_request cl rf in
  let out := serve req clock in
  (forall e, request_body (read_body req) = Raise e -> out = Raise e)
  /\ (forall body, request_body (read_body req) = Ok body ->
      (exists n, out = Ok (completion_reply (pick_response n) clock))
      \/ (out = Raise AttributeError \/ out = Raise TypeError))
  /\ (forall r, out = Ok r ->
      exists text,
        r = {| status := Some (200%Z, "OK");
               headers := [("Content-Type", "text/event-stream");
                           ("Cache-Control", "no-cache");
                           ("Connection", "keep-alive")];
               wfile := stream_text [] text clock |}
        /\ (text = TOOL_CALL_READ_FILE \/ text = TOOL_CALL_LIST_DIR
            \/ text = FINAL_SUMMARY))
  /\ (forall text,
        text = TOOL_CALL_READ_FILE \/ text = TOOL_CALL_LIST_DIR
        \/ text = FINAL_SUMMARY ->
        exists cl' rf',
          serve (completion_request cl' rf') clock
          = Ok (completion_reply text clock)).
Proof.
  intros req out. unfold out, req. split; [|split; [|split]].
  - intros e Hb. rewrite serve_completions.
    unfold _handle_completions. now rewrite Hb.
  - intros body Hb. rewrite serve_completions.
    destruct (py_get body "messages" (JArray [])) as [messages|e] eqn:Hm.
    2:{ right. unfold _handle_completions. rewrite Hb. cbn [bind].
        rewrite Hm. cbn [bind].
        unfold py_get in Hm. destruct body; try (injection Hm as <-; auto).
        destruct (PyDict.get "messages" members); discriminate. }
    destruct (py_iter messages) as [items|e] eqn:Hi.
    2:{ right. unfold _handle_completions. rewrite Hb. cbn [bind].
        rewrite Hm. cbn [bind]. rewrite Hi. cbn [bind].
        unfold py_iter in Hi.
        destruct messages; try discriminate; injection Hi as <-; auto. }
    destruct (sum_tool items) as [n|e] eqn:Hn.
    + left. exists n. apply (completions_reply _ _ _ _ _ _ Hb Hm Hi Hn).
    + right. rewrite (handle_completions_raises _ _ _ _ _ _ Hb Hm Hi Hn).
      apply sum_tool_error in Hn. subst e. now left.
  - intros r H. destruct (completions_ok _ _ _ _ H) as [n ->].
    exists (pick_response n). split; [reflexivity|].
    apply canned_text.
  - intros text [-> | [-> | ->]].
    + eexists. eexists. apply (canned_reply_reached 0 clock). lia.
    + eexists. eexists. apply (canned_reply_reached 1 clock). lia.
    + eexists. eexists. apply (canned_reply_reached 2 clock). lia.
Qed.
